(** * DecisionTrace: the hash-chained decision log

    A shallow embedding of [decisiontrace/hasher.py], [logger.py],
    [replay.py] and the [log] command of [cli.py], with the properties of
    the chain appender, the chain verifier and the record locator.

    Conventions.
    - Python text is a [string]; a character stands for the code point of
      the same number, so text is restricted to code points below 256.
    - A Python [float] is carried by the text [float.__repr__] gives it,
      which is all [json.dumps] uses of it.
    - A line of the log file is what [json.loads] makes of it: a decoding
      failure or a JSON value.  Lines end in a newline character, no
      carriage return occurs.  The readers of the file get the list of its
      lines; for the writer the file is its complete lines and the text
      after the last newline, if any, onto which the next write is glued.
    - An exception is a value of [exn]; a function that may raise returns a
      [result]. *)

From Stdlib Require Import List String Ascii ZArith Bool Lia Arith.
From Stdlib Require Import DecimalString.
Import ListNotations.
Local Open Scope string_scope.
Set Warnings "-register-all".

(** ** hashlib.sha256 *)

Module SHA256.
Local Open Scope Z_scope.

(** 32-bit words are integers of [0, 2^32); every operation wraps. *)
Definition w32 (x : Z) : Z := Z.land x 0xffffffff.
Definition add32 (x y : Z) : Z := w32 (x + y).
Definition not32 (x : Z) : Z := Z.lxor x 0xffffffff.
Definition rotr (n x : Z) : Z :=
  Z.lor (Z.shiftr x n) (w32 (Z.shiftl x (32 - n))).

Definition Ch (x y z : Z) : Z := Z.lxor (Z.land x y) (Z.land (not32 x) z).
Definition Maj (x y z : Z) : Z :=
  Z.lxor (Z.lxor (Z.land x y) (Z.land x z)) (Z.land y z).
Definition Sigma0 (x : Z) : Z := Z.lxor (Z.lxor (rotr 2 x) (rotr 13 x)) (rotr 22 x).
Definition Sigma1 (x : Z) : Z := Z.lxor (Z.lxor (rotr 6 x) (rotr 11 x)) (rotr 25 x).
Definition sigma0 (x : Z) : Z := Z.lxor (Z.lxor (rotr 7 x) (rotr 18 x)) (Z.shiftr x 3).
Definition sigma1 (x : Z) : Z := Z.lxor (Z.lxor (rotr 17 x) (rotr 19 x)) (Z.shiftr x 10).

(** The round constants: the first 32 bits of the fractional parts of the
    cube roots of the first 64 primes, that is the integer cube root of
    [p * 2^96] cut to 32 bits. *)
Definition is_prime (n : nat) : bool :=
  forallb (fun d => negb (Nat.eqb (Nat.modulo n d) 0)) (seq 2 (n - 2)).

Definition primes : list Z := map Z.of_nat (filter is_prime (seq 2 310)).

Fixpoint cube_root (bits : nat) (n r : Z) : Z :=
  match bits with
  | O => r
  | S bits' =>
      let c := r + 2 ^ Z.of_nat bits' in
      if c * c * c <=? n then cube_root bits' n c else cube_root bits' n r
  end.

Definition K : list Z :=
  Eval vm_compute in map (fun p => w32 (cube_root 40 (p * 2 ^ 96) 0)) primes.

Definition bytes_of_string (s : string) : list Z :=
  map (fun c => Z.of_nat (nat_of_ascii c)) (list_ascii_of_string s).

(** The message, the byte 0x80, zero bytes up to 56 modulo 64, and the
    bit length on eight bytes, most significant first. *)
Definition be_bytes (count : nat) (x : Z) : list Z :=
  map (fun i => Z.land (Z.shiftr x (8 * Z.of_nat i)) 0xff) (rev (seq 0 count)).

Definition pad (msg : list Z) : list Z :=
  let len := Z.of_nat (List.length msg) in
  let zeros := Z.to_nat ((55 - len) mod 64) in
  (msg ++ [0x80] ++ repeat 0 zeros ++ be_bytes 8 (8 * len))%list.

Fixpoint words_of_bytes (bs : list Z) : list Z :=
  match bs with
  | a :: b :: c :: d :: rest =>
      Z.lor (Z.shiftl a 24) (Z.lor (Z.shiftl b 16) (Z.lor (Z.shiftl c 8) d))
      :: words_of_bytes rest
  | _ => []
  end.

(** The message schedule, kept newest first: [W t] is computed from the
    words 2, 7, 15 and 16 places before it. *)
Fixpoint schedule (count : nat) (rev_w : list Z) : list Z :=
  match count with
  | O => rev_w
  | S count' =>
      let w := add32 (add32 (sigma1 (nth 1 rev_w 0)) (nth 6 rev_w 0))
                     (add32 (sigma0 (nth 14 rev_w 0)) (nth 15 rev_w 0)) in
      schedule count' (w :: rev_w)
  end.

Record regs := Regs { ra : Z; rb : Z; rc : Z; rd : Z; re : Z; rf : Z; rg : Z; rh : Z }.

Definition round (s : regs) (kw : Z * Z) : regs :=
  let (k, w) := kw in
  let t1 := add32 (add32 (add32 (rh s) (Sigma1 (re s))) (Ch (re s) (rf s) (rg s)))
                  (add32 k w) in
  let t2 := add32 (Sigma0 (ra s)) (Maj (ra s) (rb s) (rc s)) in
  Regs (add32 t1 t2) (ra s) (rb s) (rc s) (add32 (rd s) t1) (re s) (rf s) (rg s).

Definition compress (h : regs) (block : list Z) : regs :=
  let w := rev (schedule 48 (rev block)) in
  let s := fold_left round (combine K w) h in
  Regs (add32 (ra h) (ra s)) (add32 (rb h) (rb s)) (add32 (rc h) (rc s))
       (add32 (rd h) (rd s)) (add32 (re h) (re s)) (add32 (rf h) (rf s))
       (add32 (rg h) (rg s)) (add32 (rh h) (rh s)).

Fixpoint blocks (count : nat) (h : regs) (ws : list Z) : regs :=
  match count with
  | O => h
  | S count' => blocks count' (compress h (firstn 16 ws)) (skipn 16 ws)
  end.

Definition hex_digit (d : Z) : ascii :=
  nth (Z.to_nat d) (list_ascii_of_string "0123456789abcdef") "0"%char.

Definition hex_of_word (digits : nat) (x : Z) : string :=
  string_of_list_ascii
    (map (fun i => hex_digit (Z.land (Z.shiftr x (4 * Z.of_nat i)) 0xf))
         (rev (seq 0 digits))).

(** [hashlib.sha256(data).hexdigest()] *)
Definition hexdigest (data : string) : string :=
  let ws := words_of_bytes (pad (bytes_of_string data)) in
  let h := blocks (Nat.div (List.length ws) 16)
                  (Regs 0x6a09e667 0xbb67ae85 0x3c6ef372 0xa54ff53a
                        0x510e527f 0x9b05688c 0x1f83d9ab 0x5be0cd19) ws in
  String.concat ""
    (map (hex_of_word 8)
         [ra h; rb h; rc h; rd h; re h; rf h; rg h; rh h]).

End SHA256.

Example sha256_round_constants :
  List.length SHA256.K = 64
  /\ nth 0 SHA256.K 0%Z = 0x428a2f98%Z
  /\ nth 63 SHA256.K 0%Z = 0xc67178f2%Z.
Proof. repeat split. Qed.

Example sha256_abc :
  SHA256.hexdigest "abc"
  = "ba7816bf8f01cfea414140de5dae2223b00361a396177a9cb410ff61f20015ad".
Proof. vm_compute. reflexivity. Qed.

Example sha256_empty :
  SHA256.hexdigest ""
  = "e3b0c44298fc1c149afbf4c8996fb92427ae41e4649b934ca495991b7852b855".
Proof. vm_compute. reflexivity. Qed.

Example sha256_three_blocks :
  SHA256.hexdigest
    "aaaaaaaaaaaaaaaaaaaaaaaaaaaaaaaaaaaaaaaaaaaaaaaaaaaaaaaaaaaaaaaaaaaaaaaaaaaaaaaaaaaaaaaaaaaaaaaaaaaaaaaaaaaaaaaaaaaaaaaaaaaaaaaa"
  = "6836cf13bac400e9105071cd6af47084dfacad4e5e302c94bfed24e013afb73e".
Proof. vm_compute. reflexivity. Qed.

(** ** JSON values and json.dumps *)

(** What [json.loads] yields.  A dict keeps its insertion order, so an object
    is an association list; [json.loads] gives every key once. *)
Inductive json : Type :=
| JNull
| JBool (b : bool)
| JInt (n : Z)
| JFloat (repr : string)
| JStr (s : string)
| JArr (items : list json)
| JObj (members : list (string * json)).

Definition dict : Type := list (string * json).

(** [ESCAPE_DCT] and the [\uXXXX] fallback of
    [json.encoder.py_encode_basestring_ascii]: everything outside
    [' '..'~'], the quote and the backslash are escaped. *)
Definition dquote : ascii := ascii_of_nat 34.

Definition escape_char (c : ascii) : string :=
  let n := nat_of_ascii c in
  if Nat.eqb n 34 then String "\" (String dquote "")
  else if Nat.eqb n 92 then "\\"
  else if Nat.eqb n 8 then "\b"
  else if Nat.eqb n 12 then "\f"
  else if Nat.eqb n 10 then "\n"
  else if Nat.eqb n 13 then "\r"
  else if Nat.eqb n 9 then "\t"
  else if (Nat.ltb n 32 || Nat.ltb 126 n)%bool
       then "\u" ++ SHA256.hex_of_word 4 (Z.of_nat n)
  else String c "".

Fixpoint escape (s : string) : string :=
  match s with
  | EmptyString => ""
  | String c rest => escape_char c ++ escape rest
  end.

Definition encode_basestring_ascii (s : string) : string :=
  String dquote (escape s) ++ String dquote "".

(** [sorted(dct.items())] of [sort_keys=True]: a stable sort on the keys,
    which compare as Python text does, code point by code point. *)
Fixpoint insert_item (x : string * string) (l : list (string * string))
  : list (string * string) :=
  match l with
  | [] => [x]
  | y :: rest =>
      if String.leb (fst x) (fst y) then x :: y :: rest
      else y :: insert_item x rest
  end.

Definition sort_items (l : list (string * string)) : list (string * string) :=
  fold_right insert_item [] l.

Definition item_text (kv : string * string) : string :=
  encode_basestring_ascii (fst kv) ++ ": " ++ snd kv.

(** [json.dumps(v, sort_keys=True)] with the default separators.  The
    members of an object are rendered first and sorted by key afterwards,
    which gives the text of sorting first. *)
Fixpoint json_dumps (v : json) : string :=
  match v with
  | JNull => "null"
  | JBool true => "true"
  | JBool false => "false"
  | JInt n => NilZero.string_of_int (Z.to_int n)
  | JFloat repr => repr
  | JStr s => encode_basestring_ascii s
  | JArr items => "[" ++ String.concat ", " (map json_dumps items) ++ "]"
  | JObj members =>
      "{" ++ String.concat ", "
               (map item_text
                    (sort_items (map (fun kv => (fst kv, json_dumps (snd kv)))
                                     members)))
          ++ "}"
  end.

Example json_dumps_sample :
  json_dumps
    (JObj [ ("b", JArr [JInt 1; JFloat "2.5"; JNull; JBool true; JInt (-7);
                        JStr (String (ascii_of_nat 120)
                               (String dquote
                                 (String (ascii_of_nat 92)
                                   (String (ascii_of_nat 10)
                                     (String (ascii_of_nat 1)
                                       (String (ascii_of_nat 127)
                                         (String (ascii_of_nat 233) "")))))))]);
            ("a", JObj []);
            ("c", JArr []) ])
  = String.concat ""
      [ "{"; encode_basestring_ascii "a"; ": {}, "; encode_basestring_ascii "b";
        ": [1, 2.5, null, true, -7, "; String dquote "x\";
        String dquote "\\\n\u0001\u007f\u00e9";
        String dquote "], "; encode_basestring_ascii "c"; ": []}" ].
Proof. vm_compute. reflexivity. Qed.

(** ** Exceptions and the Python operations the code uses *)

Inductive exn : Type :=
| KeyError (key : string)
| TypeError
| AttributeError
| ValidationError (fields : list string)
| BadParameter_missing (fields : list string)
| BadParameter_not_json.

Inductive result (A : Type) : Type :=
| Ok (a : A)
| Raise (e : exn).
Arguments Ok {A} a.
Arguments Raise {A} e.

Definition bind {A B : Type} (r : result A) (k : A -> result B) : result B :=
  match r with
  | Ok a => k a
  | Raise e => Raise e
  end.

Notation "x <- r ;; k" := (bind r (fun x => k))
  (at level 61, r at next level, right associativity).

Fixpoint lookup (k : string) (d : dict) : option json :=
  match d with
  | [] => None
  | (k', v) :: rest => if String.eqb k' k then Some v else lookup k rest
  end.

(** [v[k]] for a text key: [KeyError] on a dict without the key,
    [TypeError] on everything that is not a dict. *)
Definition getitem (v : json) (k : string) : result json :=
  match v with
  | JObj d =>
      match lookup k d with
      | Some x => Ok x
      | None => Raise (KeyError k)
      end
  | _ => Raise TypeError
  end.

(** [v.get(k, default)]: only a dict has the method. *)
Definition get (v : json) (k : string) (default : json) : result json :=
  match v with
  | JObj d =>
      match lookup k d with
      | Some x => Ok x
      | None => Ok default
      end
  | _ => Raise AttributeError
  end.

(** [v == s] where [s] is text: only text of the same characters is equal. *)
Definition eq_str (v : json) (s : string) : bool :=
  match v with
  | JStr t => String.eqb t s
  | _ => false
  end.

(** ** hasher.py *)

(** A line of the log, by what [json.loads] does of it: it raises
    [JSONDecodeError], or it returns a value, a dict for a line that
    [log_decision] wrote. *)
Inductive line : Type :=
| Undecodable
| Decoded (record : json).

(** [LOG_FILE] as it is read: [None] when the file does not exist, else the
    lines [for line in f] gives.  The last of them may lack its newline:
    it is a line all the same, for [readline] as well, and [json.loads]
    takes no notice of a newline at the end of the text. *)
Definition log_file : Type := option (list line).

Definition genesis_hash : string := SHA256.hexdigest "genesis_block".

(** Only the last line of the file is read.  The genesis hash stands in
    for a file that is absent or empty, for a last line that does not
    decode and for a last record without the field [hash].  The test
    [if not last_line] has no case here: [readline] gives a line of at
    least one character when the file is not empty. *)
Definition get_last_hash (log : log_file) : result json :=
  match log with
  | None => Ok (JStr genesis_hash)
  | Some [] => Ok (JStr genesis_hash)
  | Some (first :: rest) =>
      match last rest first with
      | Decoded last_record => get last_record "hash" (JStr genesis_hash)
      | Undecodable => Ok (JStr genesis_hash)
      end
  end.

(** The record without its field [hash]. *)
Definition hashable_data (record_data : dict) : dict :=
  filter (fun kv => negb (String.eqb (fst kv) "hash")) record_data.

(** The SHA-256 of the text [json.dumps] gives of the record without
    [hash], keys sorted; [items] is a method of dicts only. *)
Definition calculate_hash (record_data : json) : result string :=
  match record_data with
  | JObj d => Ok (SHA256.hexdigest (json_dumps (JObj (hashable_data d))))
  | _ => Raise AttributeError
  end.

(** What the verifier prints: the line number and the kind of the error
    ([Invalid JSON], [Integrity Error], [Tampering Detected]). *)
Inductive error_kind : Type := DecodeError | ChainLinkError | TamperError.

Definition finding : Type := (nat * error_kind)%type.

Record verifier : Type := Verifier {
  previous_hash : string;
  is_valid : bool;
  printed : list finding
}.

Definition report (st : verifier) (f : finding) : verifier :=
  Verifier (previous_hash st) false (printed st ++ [f])%list.

(** The body of the loop of [verify_chain]. *)
Definition verify_line (st : verifier) (line_num : nat) (l : line)
  : result verifier :=
  match l with
  | Undecodable => Ok (report st (line_num, DecodeError))
  | Decoded record =>
      prev <- getitem record "prev_hash" ;;
      let st1 := if eq_str prev (previous_hash st) then st
                 else report st (line_num, ChainLinkError) in
      recalculated_hash <- calculate_hash record ;;
      stored <- getitem record "hash" ;;
      let st2 := if eq_str stored recalculated_hash then st1
                 else report st1 (line_num, TamperError) in
      Ok (Verifier recalculated_hash (is_valid st2) (printed st2))
  end.

(** [for i, line in enumerate(f)] from index [i] on. *)
Fixpoint verify_lines (lines : list line) (i : nat) (st : verifier)
  : result verifier :=
  match lines with
  | [] => Ok st
  | l :: rest =>
      st' <- verify_line st (i + 1) l ;;
      verify_lines rest (S i) st'
  end.

(** The verdict and the errors printed; the note printed for an absent or
    empty file is no error and is left out.  An exception leaves the loop:
    no [except] clause but the one for [JSONDecodeError] is there. *)
Definition verify_chain (log : log_file) : result (bool * list finding) :=
  match log with
  | None => Ok (true, [])
  | Some [] => Ok (true, [])
  | Some lines =>
      st <- verify_lines lines 0 (Verifier genesis_hash true []) ;;
      Ok (is_valid st, printed st)
  end.

Example genesis_hash_value :
  genesis_hash
  = "a1c0749b5b39ae000916b037528fe92676b68cc28ce91dc6762e50698c98214e".
Proof. vm_compute. reflexivity. Qed.

(** ** schema.py *)

(** Modelled from the spec: [schema.py], which declares [DecisionRecord],
    is not among the sources.  The fields and their types are those of the
    data model of the spec, in the order of its storage format;
    [decision_id] and [timestamp] are generated when absent, [confidence]
    defaults to [None] and [risk_flags] to the empty list.  Validation
    accepts a value of the declared type and nothing else. *)
Record DecisionRecord : Type := {
  decision_id : string;
  timestamp : string;
  model : string;
  config : dict;
  prompt : string;
  context_sources : list string;
  output : string;
  confidence : option string;
  risk_flags : list string;
  prev_hash : string;
  hash : string
}.

(** What the default factories draw: [uuid4()] and the clock. *)
Record stamp : Type := Stamp { fresh_id : string; now : string }.

Definition as_str (v : json) : option string :=
  match v with JStr s => Some s | _ => None end.

Definition as_dict (v : json) : option dict :=
  match v with JObj d => Some d | _ => None end.

Fixpoint as_strs (items : list json) : option (list string) :=
  match items with
  | [] => Some []
  | JStr s :: rest =>
      match as_strs rest with
      | Some l => Some (s :: l)
      | None => None
      end
  | _ :: _ => None
  end.

Definition as_str_list (v : json) : option (list string) :=
  match v with JArr items => as_strs items | _ => None end.

Definition as_optional_float (v : json) : option (option string) :=
  match v with
  | JNull => Some None
  | JFloat repr => Some (Some repr)
  | _ => None
  end.

Definition required {A : Type} (conv : json -> option A) (kw : dict) (k : string)
  : option A :=
  match lookup k kw with
  | Some v => conv v
  | None => None
  end.

Definition optional {A : Type} (conv : json -> option A) (default : A)
  (kw : dict) (k : string) : option A :=
  match lookup k kw with
  | Some v => conv v
  | None => Some default
  end.

Definition is_some {A : Type} (o : option A) : bool :=
  match o with Some _ => true | None => false end.

(** The fields a [ValidationError] names. *)
Definition invalid_fields (defaults : stamp) (kw : dict) : list string :=
  map fst
    (filter (fun c => negb (snd c))
       [ ("decision_id", is_some (optional as_str (fresh_id defaults) kw "decision_id"));
         ("timestamp", is_some (optional as_str (now defaults) kw "timestamp"));
         ("model", is_some (required as_str kw "model"));
         ("config", is_some (required as_dict kw "config"));
         ("prompt", is_some (required as_str kw "prompt"));
         ("context_sources", is_some (required as_str_list kw "context_sources"));
         ("output", is_some (required as_str kw "output"));
         ("confidence", is_some (optional as_optional_float None kw "confidence"));
         ("risk_flags", is_some (optional as_str_list [] kw "risk_flags"));
         ("prev_hash", is_some (required as_str kw "prev_hash"));
         ("hash", is_some (required as_str kw "hash")) ]).

(** Modelled from the spec: the constructor of [DecisionRecord], called
    with the keyword arguments [kw].  It raises [ValidationError] unless
    every required field is there and every field given has its type. *)
Definition DecisionRecord_init (defaults : stamp) (kw : dict)
  : result DecisionRecord :=
  match optional as_str (fresh_id defaults) kw "decision_id",
        optional as_str (now defaults) kw "timestamp",
        required as_str kw "model",
        required as_dict kw "config",
        required as_str kw "prompt",
        required as_str_list kw "context_sources",
        required as_str kw "output",
        optional as_optional_float None kw "confidence",
        optional as_str_list [] kw "risk_flags",
        required as_str kw "prev_hash",
        required as_str kw "hash"
  with
  | Some i, Some t, Some m, Some c, Some p, Some s, Some o, Some f, Some r,
    Some ph, Some h =>
      Ok {| decision_id := i; timestamp := t; model := m; config := c;
            prompt := p; context_sources := s; output := o; confidence := f;
            risk_flags := r; prev_hash := ph; hash := h |}
  | _, _, _, _, _, _, _, _, _, _, _ =>
      Raise (ValidationError (invalid_fields defaults kw))
  end.

(** Modelled from the spec: [DecisionRecord.parse_obj(obj)], the
    constructor applied to the members of a dict. *)
Definition parse_obj (defaults : stamp) (obj : json) : result DecisionRecord :=
  match obj with
  | JObj d => DecisionRecord_init defaults d
  | _ => Raise (ValidationError ["__root__"])
  end.

(** Modelled from the spec: the record as a dict, with every field in the
    order of the storage format.  It is what [json.loads] reads back from
    the line [record.json()]. *)
Definition record_dict (r : DecisionRecord) : dict :=
  [ ("decision_id", JStr (decision_id r));
    ("timestamp", JStr (timestamp r));
    ("model", JStr (model r));
    ("config", JObj (config r));
    ("prompt", JStr (prompt r));
    ("context_sources", JArr (map JStr (context_sources r)));
    ("output", JStr (output r));
    ("confidence", match confidence r with
                   | Some repr => JFloat repr
                   | None => JNull
                   end);
    ("risk_flags", JArr (map JStr (risk_flags r)));
    ("prev_hash", JStr (prev_hash r));
    ("hash", JStr (hash r)) ].

(** ** logger.py *)

(** Truth value of a JSON value, as [or] tests it. *)
Definition truthy (v : json) : bool :=
  match v with
  | JNull => false
  | JBool b => b
  | JInt n => negb (Z.eqb n 0)
  | JFloat repr => negb (String.eqb repr "0.0" || String.eqb repr "-0.0")
  | JStr s => negb (String.eqb s "")
  | JArr items => negb (Nat.eqb (List.length items) 0)
  | JObj members => negb (Nat.eqb (List.length members) 0)
  end.

Definition is_None (v : json) : bool :=
  match v with JNull => true | _ => false end.

(** The text after the last newline of a file that does not end in one:
    spaces and tabs only, or any other text, which comes with what
    [json.loads] makes of it as it stands. *)
Inductive fragment : Type :=
| Spaces
| Text (l : line).

(** [LOG_FILE] on disk, as the writer finds it: no file, or the lines that
    end in a newline and the text after the last newline, if there is
    some.  An empty file is [File [] None]. *)
Inductive disk_file : Type :=
| NoFile
| File (complete : list line) (rest : option fragment).

(** The text after the last newline, onto which the next write is glued. *)
Definition open_end (f : disk_file) : option fragment :=
  match f with
  | NoFile => None
  | File _ rest => rest
  end.

(** The lines of the file that end in a newline. *)
Definition complete_lines (f : disk_file) : list line :=
  match f with
  | NoFile => []
  | File complete _ => complete
  end.

(** What the readers get of the file.  [json.loads] raises on a text of
    spaces and tabs. *)
Definition read (f : disk_file) : log_file :=
  match f with
  | NoFile => None
  | File complete None => Some complete
  | File complete (Some Spaces) => Some (complete ++ [Undecodable])%list
  | File complete (Some (Text l)) => Some (complete ++ [l])%list
  end.

(** What [json.loads] makes of the line that a [write] of the text of
    [record] and a newline leaves at the end of the file.  The text goes
    after the last byte.  After a newline, or into an empty file, it is a
    line of its own.  After spaces and tabs it is a line that decodes to
    the record: [json.loads] skips blanks before the value.  After any other
    text the line does not decode: the text of a record is a whole object,
    which begins with a brace and a quoted key, so a value begun in the
    text before it is not closed by it, and after a value that has ended
    it is extra data. *)
Definition written_line (rest : option fragment) (record : json) : line :=
  match rest with
  | None => Decoded record
  | Some Spaces => Decoded record
  | Some (Text _) => Undecodable
  end.

(** [open(LOG_FILE, "a")] and one [write] of [final_record.json() + "\n"]:
    the file is created when absent, and it ends in a newline afterwards. *)
Definition append_line (log : disk_file) (record : json) : disk_file :=
  match log with
  | NoFile => File [Decoded record] None
  | File complete rest =>
      File (complete ++ [written_line rest record])%list None
  end.

(** The arguments are the values the caller passes, [JNull] for [None];
    [defaults] is what the default factories draw for the temporary
    record.  Nothing is written before the last step. *)
Definition log_decision (log : disk_file)
  (model config prompt context_sources output confidence risk_flags : json)
  (defaults : stamp) : result (DecisionRecord * disk_file) :=
  let risk_flags := if is_None risk_flags then JArr [] else risk_flags in
  prev_hash <- get_last_hash (read log) ;;
  let partial_data : dict :=
    [ ("model", model);
      ("config", config);
      ("prompt", prompt);
      ("context_sources", context_sources);
      ("output", output);
      ("confidence", confidence);
      ("risk_flags", if truthy risk_flags then risk_flags else JArr []);
      ("prev_hash", prev_hash) ] in
  temp_record <- DecisionRecord_init defaults
                   (partial_data ++ [("hash", JStr "dummy_hash")])%list ;;
  let record_data_for_hashing : dict :=
    (partial_data ++ [ ("decision_id", JStr (decision_id temp_record));
                       ("timestamp", JStr (timestamp temp_record)) ])%list in
  current_hash <- calculate_hash (JObj record_data_for_hashing) ;;
  final_record <- DecisionRecord_init defaults
                    (record_data_for_hashing ++ [("hash", JStr current_hash)])%list ;;
  Ok (final_record, append_line log (JObj (record_dict final_record))).

(** One call of [log_decision]: its arguments and what the default
    factories draw during it. *)
Record call : Type := Call {
  arg_model : json;
  arg_config : json;
  arg_prompt : json;
  arg_context_sources : json;
  arg_output : json;
  arg_confidence : json;
  arg_risk_flags : json;
  arg_stamp : stamp
}.

Definition log_call (log : disk_file) (c : call)
  : result (DecisionRecord * disk_file) :=
  log_decision log (arg_model c) (arg_config c) (arg_prompt c)
    (arg_context_sources c) (arg_output c) (arg_confidence c)
    (arg_risk_flags c) (arg_stamp c).

(** Calls made one after the other; the first that raises stops the run. *)
Fixpoint log_calls (log : disk_file) (calls : list call) : result disk_file :=
  match calls with
  | [] => Ok log
  | c :: rest =>
      r <- log_call log c ;;
      log_calls (snd r) rest
  end.

(** ** replay.py *)

(** What [replay_decision] prints: the error for a missing log file, the
    record it displays, or the not-found message. *)
Inductive console : Type :=
| LogFileNotFound
| Replay (record : DecisionRecord)
| IdNotFound (decision_id : string).

(** The loop over the lines: the record to display, or [None] when the
    loop runs to its end.  Only [JSONDecodeError] is caught. *)
Fixpoint replay_lines (lines : list line) (decision_id : string)
  (defaults : stamp) : result (option DecisionRecord) :=
  match lines with
  | [] => Ok None
  | Undecodable :: rest => replay_lines rest decision_id defaults
  | Decoded record_data :: rest =>
      found <- get record_data "decision_id" JNull ;;
      if eq_str found decision_id then
        record <- parse_obj defaults record_data ;;
        Ok (Some record)
      else replay_lines rest decision_id defaults
  end.

Definition replay_decision (log : log_file) (decision_id : string)
  (defaults : stamp) : result (bool * console) :=
  match log with
  | None => Ok (false, LogFileNotFound)
  | Some lines =>
      found <- replay_lines lines decision_id defaults ;;
      match found with
      | Some record => Ok (true, Replay record)
      | None => Ok (false, IdNotFound decision_id)
      end
  end.

(** ** cli.py: the [log] command *)

Definition required_fields : list string :=
  ["model"; "config"; "prompt"; "context_sources"; "output"].

Fixpoint is_substring (needle hay : string) : bool :=
  (String.prefix needle hay
   || match hay with
      | EmptyString => false
      | String _ rest => is_substring needle rest
      end)%bool.

(** [field in data]: a key of a dict, an item of a list, a piece of a text;
    [TypeError] on the rest. *)
Definition contains (data : json) (field : string) : result bool :=
  match data with
  | JObj d => Ok (is_some (lookup field d))
  | JArr items => Ok (existsb (fun v => eq_str v field) items)
  | JStr s => Ok (is_substring field s)
  | _ => Raise TypeError
  end.

(** [all(field in data for field in fields)], which stops at the first
    field that is not in. *)
Fixpoint all_in (data : json) (fields : list string) : result bool :=
  match fields with
  | [] => Ok true
  | field :: rest =>
      b <- contains data field ;;
      if b then all_in data rest else Ok false
  end.

(** [set(required_fields) - set(data.keys())]; a set has no order, the
    fields are listed in the order of [required_fields]. *)
Definition missing_fields (data : json) : result (list string) :=
  match data with
  | JObj d => Ok (filter (fun f => negb (is_some (lookup f d))) required_fields)
  | _ => Raise AttributeError
  end.

(** The body of the [try] of the command. *)
Definition log_body (log : disk_file) (data : json) (defaults : stamp)
  : result (DecisionRecord * disk_file) :=
  complete <- all_in data required_fields ;;
  if complete then
    model <- getitem data "model" ;;
    config <- getitem data "config" ;;
    prompt <- getitem data "prompt" ;;
    context_sources <- getitem data "context_sources" ;;
    output <- getitem data "output" ;;
    confidence <- get data "confidence" JNull ;;
    risk_flags <- get data "risk_flags" JNull ;;
    log_decision log model config prompt context_sources output confidence
      risk_flags defaults
  else
    missing <- missing_fields data ;;
    Raise (BadParameter_missing missing).

(** How the command ends: the record it reports, [click.Abort] after
    printing the error [An error occurred: ...], or the [BadParameter]
    raised for a file that is not JSON. *)
Inductive exit : Type :=
| Logged (record : DecisionRecord)
| Abort (error : exn)
| UsageError (error : exn).

(** [decision_file] is what [json.load] makes of the file, [None] when it
    raises [JSONDecodeError]. *)
Definition log (store : disk_file) (decision_file : option json)
  (defaults : stamp) : exit * disk_file :=
  match decision_file with
  | None => (UsageError BadParameter_not_json, store)
  | Some data =>
      match log_body store data defaults with
      | Ok (record, store') => (Logged record, store')
      | Raise e => (Abort e, store)
      end
  end.

(** * Properties *)

Local Open Scope list_scope.

Arguments SHA256.hexdigest : simpl never.
Arguments json_dumps : simpl never.

(** The canonical digest of a record: the hash of its content, the field
    [hash] left out. *)
Definition digest (d : dict) : string :=
  SHA256.hexdigest (json_dumps (JObj (hashable_data d))).

Lemma calculate_hash_dict (d : dict) : calculate_hash (JObj d) = Ok (digest d).
Proof. reflexivity. Qed.

Lemma bind_Ok {A B : Type} (r : result A) (k : A -> result B) (b : B) :
  bind r k = Ok b -> exists a, r = Ok a /\ k a = Ok b.
Proof.
  destruct r as [a | e]; simpl; intros H.
  - exists a. split; [reflexivity | exact H].
  - discriminate H.
Qed.

Tactic Notation "bind_inv" hyp(H) "as" ident(a) ident(Ha) :=
  apply bind_Ok in H; destruct H as [a [Ha H]].

(** ** The validators give back what they were given *)

Lemma as_str_inv (v : json) (s : string) : as_str v = Some s -> v = JStr s.
Proof. destruct v; simpl; intros H; inversion H; reflexivity. Qed.

Lemma as_dict_inv (v : json) (d : dict) : as_dict v = Some d -> v = JObj d.
Proof. destruct v; simpl; intros H; inversion H; reflexivity. Qed.

Lemma as_strs_inv (items : list json) :
  forall l, as_strs items = Some l -> items = map JStr l.
Proof.
  induction items as [| v rest IH]; simpl; intros l H.
  - inversion H. reflexivity.
  - destruct v; try discriminate H.
    destruct (as_strs rest) as [l' |] eqn:E; [| discriminate H].
    inversion H; subst. simpl. rewrite (IH l' eq_refl). reflexivity.
Qed.

Lemma as_str_list_inv (v : json) (l : list string) :
  as_str_list v = Some l -> v = JArr (map JStr l).
Proof.
  destruct v; simpl; intros H; try discriminate H.
  apply as_strs_inv in H. subst. reflexivity.
Qed.

Lemma as_optional_float_inv (v : json) (f : option string) :
  as_optional_float v = Some f ->
  v = match f with Some repr => JFloat repr | None => JNull end.
Proof. destruct v; simpl; intros H; inversion H; reflexivity. Qed.


(** ** The appender *)

(** What a successful call of [log_decision] has done, step by step. *)
Lemma log_call_Ok (log : disk_file) (c : call) (r : DecisionRecord)
  (log' : disk_file) :
  log_call log c = Ok (r, log') ->
  get_last_hash (read log) = Ok (JStr (prev_hash r))
  /\ hash r = digest (record_dict r)
  /\ decision_id r = fresh_id (arg_stamp c)
  /\ timestamp r = now (arg_stamp c)
  /\ arg_model c = JStr (model r)
  /\ arg_config c = JObj (config r)
  /\ arg_prompt c = JStr (prompt r)
  /\ arg_context_sources c = JArr (map JStr (context_sources r))
  /\ arg_output c = JStr (output r)
  /\ log' = append_line log (JObj (record_dict r)).
Proof.
  destruct c as [a_model a_config a_prompt a_sources a_output a_confidence
                   a_flags defaults].
  unfold log_call; simpl.
  unfold log_decision. intros H.
  bind_inv H as ph Hph. bind_inv H as temp Htemp.
  bind_inv H as current Hcur. bind_inv H as final Hfinal.
  inversion H; subst final log'; clear H.
  rewrite calculate_hash_dict in Hcur. inversion Hcur; subst current; clear Hcur.
  unfold DecisionRecord_init, required, optional in Htemp; simpl in Htemp.
  destruct (as_str a_model) as [m |] eqn:Em; [| discriminate Htemp].
  destruct (as_dict a_config) as [c |] eqn:Ec; [| discriminate Htemp].
  destruct (as_str a_prompt) as [p |] eqn:Ep; [| discriminate Htemp].
  destruct (as_str_list a_sources) as [s |] eqn:Es; [| discriminate Htemp].
  destruct (as_str a_output) as [o |] eqn:Eo; [| discriminate Htemp].
  destruct (as_optional_float a_confidence) as [f |] eqn:Ef; [| discriminate Htemp].
  destruct (as_str_list (if truthy _ then _ else _)) as [rl |] eqn:Er;
    [| discriminate Htemp].
  destruct (as_str ph) as [h |] eqn:Eh; [| discriminate Htemp].
  inversion Htemp; subst temp; clear Htemp.
  unfold DecisionRecord_init, required, optional in Hfinal; simpl in Hfinal.
  rewrite Em, Ec, Ep, Es, Eo, Ef, Er, Eh in Hfinal.
  inversion Hfinal; subst r; clear Hfinal. simpl.
  apply as_str_inv in Em, Ep, Eo, Eh. apply as_dict_inv in Ec.
  apply as_str_list_inv in Es, Er. apply as_optional_float_inv in Ef.
  subst a_model a_config a_prompt a_sources a_output a_confidence ph.
  repeat split; try reflexivity.
  - exact Hph.
  - unfold digest. f_equal. rewrite Er. reflexivity.
Qed.

(** ** The verifier, line by line *)

Definition lines_of (log : log_file) : list line :=
  match log with
  | None => []
  | Some lines => lines
  end.

(** The state of the verifier after the last line of the log. *)
Definition scan (log : log_file) : result verifier :=
  verify_lines (lines_of log) 0 (Verifier genesis_hash true []).

Lemma verify_chain_scan (log : log_file) :
  verify_chain log = (st <- scan log ;; Ok (is_valid st, printed st)).
Proof. destruct log as [[| l lines] |]; reflexivity. Qed.

Lemma verify_lines_app (l1 l2 : list line) :
  forall i st,
    verify_lines (l1 ++ l2) i st
    = (st' <- verify_lines l1 i st ;; verify_lines l2 (i + List.length l1) st').
Proof.
  induction l1 as [| l l1 IH]; intros i st; simpl.
  - rewrite Nat.add_0_r. reflexivity.
  - destruct (verify_line st (i + 1) l) as [st1 | e]; simpl; [| reflexivity].
    rewrite IH. replace (S i + List.length l1) with (i + S (List.length l1)) by lia.
    reflexivity.
Qed.

(** The findings of one decoded record with both hash fields, given the
    hash the verifier expects. *)
Definition link_finding (expected : string) (n : nat) (p : json) : list finding :=
  if eq_str p expected then [] else [(n, ChainLinkError)].

Definition tamper_finding (d : dict) (n : nat) (h : json) : list finding :=
  if eq_str h (digest d) then [] else [(n, TamperError)].

Definition no_finding (fs : list finding) : bool :=
  match fs with [] => true | _ :: _ => false end.

Lemma verify_line_dict (st : verifier) (n : nat) (d : dict) (p h : json) :
  lookup "prev_hash" d = Some p ->
  lookup "hash" d = Some h ->
  verify_line st n (Decoded (JObj d))
  = Ok (Verifier (digest d)
          (is_valid st
           && no_finding (link_finding (previous_hash st) n p
                          ++ tamper_finding d n h))
          (printed st ++ link_finding (previous_hash st) n p
                      ++ tamper_finding d n h)).
Proof.
  intros Hp Hh. unfold verify_line, getitem, link_finding, tamper_finding.
  rewrite Hp, Hh. simpl. fold (digest d).
  destruct st as [prev valid out]; simpl.
  destruct (eq_str p prev), (eq_str h (digest d)); simpl;
    rewrite ?app_nil_r, ?andb_true_r, ?andb_false_r, <- ?app_assoc;
    reflexivity.
Qed.

Lemma link_finding_same (s : string) (n : nat) :
  link_finding s n (JStr s) = [].
Proof. unfold link_finding, eq_str. rewrite String.eqb_refl. reflexivity. Qed.

Lemma tamper_finding_same (d : dict) (n : nat) :
  tamper_finding d n (JStr (digest d)) = [].
Proof. unfold tamper_finding, eq_str. rewrite String.eqb_refl. reflexivity. Qed.

(** A line that does not raise is undecodable or a dict with both fields. *)
Lemma verify_line_Ok (st st' : verifier) (n : nat) (l : line) :
  verify_line st n l = Ok st' ->
  l = Undecodable
  \/ exists d p h, l = Decoded (JObj d)
                   /\ lookup "prev_hash" d = Some p
                   /\ lookup "hash" d = Some h.
Proof.
  destruct l as [| record]; [left; reflexivity |].
  intros H. right. unfold verify_line in H.
  bind_inv H as p Hp. bind_inv H as c Hc. bind_inv H as h Hh.
  destruct record; simpl in Hp; try discriminate Hp.
  exists members, p, h. unfold getitem in Hp, Hh.
  destruct (lookup "prev_hash" members); [| discriminate Hp].
  destruct (lookup "hash" members); [| discriminate Hh].
  inversion Hp; inversion Hh; subst. repeat split; reflexivity.
Qed.

(** One line adds its findings to what was printed, and the flag stays up
    exactly when it adds none. *)
Lemma verify_line_printed (st st' : verifier) (n : nat) (l : line) :
  verify_line st n l = Ok st' ->
  exists fs, printed st' = (printed st ++ fs)%list
             /\ is_valid st' = (is_valid st && no_finding fs)%bool.
Proof.
  intros H. destruct (verify_line_Ok _ _ _ _ H) as [-> | (d & p & h & -> & Hp & Hh)].
  - inversion H; subst. exists [(n, DecodeError)]. simpl.
    rewrite andb_false_r. split; reflexivity.
  - rewrite (verify_line_dict _ _ _ _ _ Hp Hh) in H. inversion H; subst; simpl.
    eexists. split; reflexivity.
Qed.

Lemma no_finding_app (fs gs : list finding) :
  no_finding (fs ++ gs) = (no_finding fs && no_finding gs)%bool.
Proof. destruct fs; reflexivity. Qed.

Lemma verify_lines_printed (lines : list line) :
  forall i st st',
    verify_lines lines i st = Ok st' ->
    exists fs, printed st' = (printed st ++ fs)%list
               /\ is_valid st' = (is_valid st && no_finding fs)%bool.
Proof.
  induction lines as [| l lines IH]; intros i st st' H; simpl in H.
  - inversion H; subst. exists []. rewrite app_nil_r, andb_true_r.
    split; reflexivity.
  - bind_inv H as st1 Ha.
    destruct (verify_line_printed _ _ _ _ Ha) as (fs & Hfs & Hv).
    destruct (IH _ _ _ H) as (gs & Hgs & Hw).
    exists (fs ++ gs)%list. rewrite Hgs, Hfs, Hw, Hv, no_finding_app.
    rewrite app_assoc, andb_assoc. split; reflexivity.
Qed.

(** The verdict is the conjunction of the checks: it is [True] exactly when
    nothing was printed. *)
Lemma verify_chain_verdict (log : log_file) (b : bool) (fs : list finding) :
  verify_chain log = Ok (b, fs) -> b = no_finding fs.
Proof.
  rewrite verify_chain_scan. intros H. bind_inv H as st Ha.
  inversion H; subst; clear H. unfold scan in Ha.
  destruct (verify_lines_printed _ _ _ _ Ha) as (fs & Hfs & Hv).
  simpl in Hfs, Hv. rewrite Hfs, Hv. reflexivity.
Qed.

(** ** A log grown by [log_decision] alone *)

(** The verifier reaches the end of the log with nothing to report, and
    the hash it then expects is the one [get_last_hash] hands to the next
    call. *)
Definition intact (log : log_file) : Prop :=
  exists h, scan log = Ok (Verifier h true [])
            /\ get_last_hash log = Ok (JStr h).


Lemma read_append_line (log : disk_file) (record : json) :
  read (append_line log record)
  = Some (complete_lines log ++ [written_line (open_end log) record]).
Proof. destruct log as [| complete rest]; reflexivity. Qed.

Lemma open_end_append_line (log : disk_file) (record : json) :
  open_end (append_line log record) = None.
Proof. destruct log; reflexivity. Qed.

Lemma lines_of_closed (log : disk_file) :
  open_end log = None -> lines_of (read log) = complete_lines log.
Proof. destruct log as [| complete [frag |]]; [| discriminate |]; reflexivity. Qed.

(** After a newline the record written is a line more. *)
Lemma read_append_line_closed (log : disk_file) (record : json) :
  open_end log = None ->
  read (append_line log record) = Some (lines_of (read log) ++ [Decoded record]).
Proof.
  intros H. rewrite read_append_line, (lines_of_closed _ H), H. reflexivity.
Qed.


Lemma get_last_hash_last_line (lines : list line) (l : line) :
  get_last_hash (Some (lines ++ [l]))
  = match l with
    | Decoded last_record => get last_record "hash" (JStr genesis_hash)
    | Undecodable => Ok (JStr genesis_hash)
    end.
Proof.
  destruct lines as [| first rest]; [reflexivity |].
  cbn [get_last_hash app]. rewrite last_last. reflexivity.
Qed.

Lemma intact_log_call (log log' : disk_file) (c : call) (r : DecisionRecord) :
  open_end log = None ->
  intact (read log) -> log_call log c = Ok (r, log') -> intact (read log').
Proof.
  intros Hend (h & Hscan & Hlast) H.
  destruct (log_call_Ok _ _ _ _ H) as (Hprev & Hhash & _ & _ & _ & _ & _ & _ & _ & ->).
  rewrite Hlast in Hprev. inversion Hprev as [Hh]; clear Hprev.
  rewrite (read_append_line_closed _ _ Hend).
  exists (digest (record_dict r)). split.
  - unfold scan in *. cbn [lines_of]. rewrite verify_lines_app, Hscan.
    cbn [bind verify_lines].
    rewrite (@verify_line_dict _ _ (record_dict r)
                      (JStr (prev_hash r)) (JStr (hash r)) eq_refl eq_refl).
    cbn [previous_hash]. rewrite <- Hh, Hhash.
    rewrite link_finding_same, tamper_finding_same. reflexivity.
  - rewrite get_last_hash_last_line. simpl. rewrite Hhash. reflexivity.
Qed.

Lemma log_call_closes (log log' : disk_file) (c : call) (r : DecisionRecord) :
  log_call log c = Ok (r, log') -> open_end log' = None.
Proof.
  intros H.
  destruct (log_call_Ok _ _ _ _ H) as (_ & _ & _ & _ & _ & _ & _ & _ & _ & ->).
  apply open_end_append_line.
Qed.



(** C2. The record [log_decision] returns carries the digest of its own
    content: [calculate_hash] of the record, which leaves the field [hash]
    out, sorts the keys and hashes the text, gives its field [hash]. *)
Theorem returned_record_hash_is_its_digest (log : disk_file) (c : call)
  (r : DecisionRecord) (log' : disk_file) :
  log_call log c = Ok (r, log') ->
  calculate_hash (JObj (record_dict r)) = Ok (hash r)
  /\ hash r
     = SHA256.hexdigest
         (json_dumps
            (JObj (filter (fun kv => negb (String.eqb (fst kv) "hash"))
                          (record_dict r)))).
Proof.
  intros H. destruct (log_call_Ok _ _ _ _ H) as (_ & Hhash & _).
  rewrite calculate_hash_dict, Hhash. split; reflexivity.
Qed.

(** Arguments of the annotated types: text, a dict, lists of text, a float
    or [None]. *)
Definition well_typed (c : call) : bool :=
  (is_some (as_str (arg_model c))
   && is_some (as_dict (arg_config c))
   && is_some (as_str (arg_prompt c))
   && is_some (as_str_list (arg_context_sources c))
   && is_some (as_str (arg_output c))
   && is_some (as_optional_float (arg_confidence c))
   && (is_None (arg_risk_flags c) || is_some (as_str_list (arg_risk_flags c))))%bool.

Lemma is_some_true {A : Type} (o : option A) :
  is_some o = true -> exists a, o = Some a.
Proof. destruct o as [a |]; [exists a; reflexivity | discriminate]. Qed.

Lemma risk_flags_valid (v : json) :
  (is_None v || is_some (as_str_list v))%bool = true ->
  exists l, as_str_list (if truthy (if is_None v then JArr [] else v)
                         then (if is_None v then JArr [] else v)
                         else JArr []) = Some l.
Proof.
  destruct (is_None v) eqn:E; simpl.
  - intros _. exists []. reflexivity.
  - intros H. apply is_some_true in H. destruct H as [l Hl].
    destruct (truthy v); [exists l; exact Hl | exists []; reflexivity].
Qed.

(** On an intact log a call with well-typed arguments returns. *)
Lemma log_call_succeeds (log : disk_file) (c : call) :
  intact (read log) -> well_typed c = true ->
  exists r log', log_call log c = Ok (r, log').
Proof.
  intros (h & _ & Hlast) H. unfold well_typed in H.
  repeat (apply andb_prop in H; destruct H as [H ?]).
  destruct c as [a_model a_config a_prompt a_sources a_output a_confidence
                   a_flags defaults]; simpl in *.
  repeat match goal with
         | E : is_some _ = true |- _ =>
             apply is_some_true in E; destruct E as [? E]
         end.
  match goal with
  | E : (is_None _ || _)%bool = true |- _ =>
      apply risk_flags_valid in E; destruct E as [rl Er]
  end.
  unfold log_call, log_decision; simpl. rewrite Hlast. cbn [bind].
  unfold DecisionRecord_init, required, optional; simpl.
  repeat match goal with E : _ = Some _ |- _ => rewrite E; clear E end.
  simpl. eexists. eexists. reflexivity.
Qed.

Lemma log_calls_succeed (calls : list call) :
  forall log, open_end log = None -> intact (read log) ->
              forallb well_typed calls = true ->
              exists log', log_calls log calls = Ok log'.
Proof.
  induction calls as [| c calls IH]; intros log Hend Hi H; simpl in *.
  - exists log. reflexivity.
  - apply andb_prop in H. destruct H as [Hc H].
    destruct (log_call_succeeds log c Hi Hc) as (r & log1 & Hr).
    rewrite Hr. simpl. apply IH; [| | exact H].
    + eapply log_call_closes; eassumption.
    + eapply intact_log_call; eassumption.
Qed.

(** ** The scenario of the tests: two decisions logged one after the other *)

Definition DECISION_1 : call :=
  Call (JStr "test-model-1") (JObj [("temp", JInt 1)]) (JStr "prompt 1")
       (JArr [JStr "c1"]) (JStr "output 1") (JFloat "0.1") JNull
       (Stamp "1b4e28ba-2fa1-41d2-883f-0016d3cca427" "2024-05-01T10:00:00.000001").

Definition DECISION_2 : call :=
  Call (JStr "test-model-2") (JObj [("temp", JInt 2)]) (JStr "prompt 2")
       (JArr [JStr "c2"]) (JStr "output 2") (JFloat "0.2") JNull
       (Stamp "6fa459ea-ee8a-4ca4-894e-db77e160355e" "2024-05-01T10:00:07.500000").

(** The lines of a log on which every call returned, none otherwise. *)
Definition logged (calls : list call) : list line :=
  match log_calls NoFile calls with
  | Ok log => lines_of (read log)
  | Raise _ => []
  end.

Definition two_records : list line := Eval vm_compute in logged [DECISION_1; DECISION_2].


Definition RECORD_1 : DecisionRecord :=
  {| decision_id := "1b4e28ba-2fa1-41d2-883f-0016d3cca427";
     timestamp := "2024-05-01T10:00:00.000001";
     model := "test-model-1";
     config := [("temp", JInt 1)];
     prompt := "prompt 1";
     context_sources := ["c1"];
     output := "output 1";
     confidence := Some "0.1";
     risk_flags := [];
     prev_hash := genesis_hash;
     hash := digest
               [ ("model", JStr "test-model-1"); ("config", JObj [("temp", JInt 1)]);
                 ("prompt", JStr "prompt 1"); ("context_sources", JArr [JStr "c1"]);
                 ("output", JStr "output 1"); ("confidence", JFloat "0.1");
                 ("risk_flags", JArr []); ("prev_hash", JStr genesis_hash);
                 ("decision_id", JStr "1b4e28ba-2fa1-41d2-883f-0016d3cca427");
                 ("timestamp", JStr "2024-05-01T10:00:00.000001") ] |}.

Lemma returned_record_hash_is_its_digest_witness :
  log_call NoFile DECISION_1
  = Ok (RECORD_1, File [Decoded (JObj (record_dict RECORD_1))] None)
  /\ calculate_hash (JObj (record_dict RECORD_1)) = Ok (hash RECORD_1).
Proof.
  assert (H : log_call NoFile DECISION_1
              = Ok (RECORD_1, File [Decoded (JObj (record_dict RECORD_1))] None))
    by reflexivity.
  split; [exact H |].
  exact (proj1 (@returned_record_hash_is_its_digest NoFile DECISION_1 RECORD_1
                  (File [Decoded (JObj (record_dict RECORD_1))] None) H)).
Defined.

(** ** The verdict of the verifier *)

(** The hash the verifier expects of the line at position [i] (from 0): the
    digest of the nearest line before it that decoded to a dict, the genesis
    hash when there is none. *)
Fixpoint expected_prev (lines : list line) (i : nat) : string :=
  match i with
  | O => genesis_hash
  | S j =>
      match nth_error lines j with
      | Some (Decoded (JObj d)) => digest d
      | _ => expected_prev lines j
      end
  end.

(** The line at position [i] passes its checks: it decodes to a record whose
    [prev_hash] is the expected hash and whose [hash] is its own digest. *)
Definition passes (lines : list line) (i : nat) : Prop :=
  exists d, nth_error lines i = Some (Decoded (JObj d))
            /\ lookup "prev_hash" d = Some (JStr (expected_prev lines i))
            /\ lookup "hash" d = Some (JStr (digest d)).

Lemma eq_str_true (v : json) (s : string) : eq_str v s = true <-> v = JStr s.
Proof.
  destruct v; simpl; split; intros H; try discriminate H.
  - apply String.eqb_eq in H. subst. reflexivity.
  - inversion H. apply String.eqb_refl.
Qed.

Lemma expected_prev_app (l1 l2 : list line) (i : nat) :
  i <= List.length l1 -> expected_prev (l1 ++ l2) i = expected_prev l1 i.
Proof.
  induction i as [| j IH]; intros H; simpl; [reflexivity |].
  rewrite nth_error_app1 by lia. rewrite IH by lia. reflexivity.
Qed.

Lemma passes_app (l1 l2 : list line) (i : nat) :
  i < List.length l1 -> (passes (l1 ++ l2) i <-> passes l1 i).
Proof.
  intros H. unfold passes.
  rewrite nth_error_app1 by lia. rewrite expected_prev_app by lia. tauto.
Qed.

Lemma expected_prev_snoc (ls : list line) (l : line) :
  expected_prev (ls ++ [l]) (S (List.length ls))
  = match l with
    | Decoded (JObj d) => digest d
    | _ => expected_prev ls (List.length ls)
    end.
Proof.
  simpl. rewrite nth_error_app2, Nat.sub_diag by lia. simpl.
  rewrite expected_prev_app by lia. reflexivity.
Qed.

(** After a run that does not raise, the verifier expects [expected_prev]
    of the next position. *)
Lemma scan_previous_hash (lines : list line) :
  forall st,
    verify_lines lines 0 (Verifier genesis_hash true []) = Ok st ->
    previous_hash st = expected_prev lines (List.length lines).
Proof.
  induction lines as [| l ls IH] using rev_ind; intros st H.
  - inversion H. reflexivity.
  - rewrite verify_lines_app in H. bind_inv H as st1 H1.
    cbn [verify_lines] in H. bind_inv H as st2 H2. inversion H; subst st2.
    rewrite length_app, Nat.add_comm. cbn [List.length Nat.add].
    rewrite expected_prev_snoc, <- (IH _ H1).
    destruct (verify_line_Ok _ _ _ _ H2) as [-> | (d & p & h & -> & Hp & Hh)].
    + inversion H2; reflexivity.
    + rewrite (verify_line_dict _ _ _ _ _ Hp Hh) in H2. inversion H2; reflexivity.
Qed.

Lemma scan_valid_iff (lines : list line) :
  (exists st, verify_lines lines 0 (Verifier genesis_hash true []) = Ok st
              /\ is_valid st = true)
  <-> (forall i, i < List.length lines -> passes lines i).
Proof.
  induction lines as [| l ls IH] using rev_ind.
  - split; [intros _ i Hi; inversion Hi |].
    intros _. eexists. split; reflexivity.
  - split.
    + intros (st & H & Hv) i Hi.
      rewrite verify_lines_app in H. bind_inv H as st1 H1.
      cbn [verify_lines] in H. bind_inv H as st2 H2. inversion H; subst st2.
      destruct (verify_line_printed _ _ _ _ H2) as (fs & _ & Hfs).
      rewrite Hv in Hfs. symmetry in Hfs. apply andb_prop in Hfs.
      destruct Hfs as [Hv1 _].
      rewrite length_app in Hi. cbn [List.length] in Hi.
      destruct (Nat.eq_dec i (List.length ls)) as [-> | Hne].
      * pose proof (scan_previous_hash _ _ H1) as Hprev.
        destruct (verify_line_Ok _ _ _ _ H2) as [-> | (d & p & h & -> & Hp & Hh)].
        -- inversion H2; subst st. simpl in Hv. discriminate Hv.
        -- rewrite (verify_line_dict _ _ _ _ _ Hp Hh) in H2.
           inversion H2; subst st; clear H2. simpl in Hv.
           rewrite Hv1, no_finding_app in Hv. simpl in Hv.
           apply andb_prop in Hv. destruct Hv as [Hl Ht].
           unfold link_finding in Hl. unfold tamper_finding in Ht.
           destruct (eq_str p (previous_hash st1)) eqn:Ep; [| discriminate Hl].
           destruct (eq_str h (digest d)) eqn:Eh; [| discriminate Ht].
           apply eq_str_true in Ep, Eh. subst p h.
           exists d. rewrite nth_error_app2, Nat.sub_diag by lia.
           rewrite expected_prev_app by lia. rewrite <- Hprev.
           repeat split; assumption.
      * apply passes_app; [lia |]. apply IH; [| lia].
        exists st1. split; assumption.
    + intros Hall.
      assert (Hls : forall i, i < List.length ls -> passes ls i).
      { intros i Hi. apply (passes_app ls [l]); [exact Hi |].
        apply Hall. rewrite length_app. simpl. lia. }
      apply IH in Hls. destruct Hls as (st1 & H1 & Hv1).
      destruct (Hall (List.length ls)) as (d & Hd & Hp & Hh).
      { rewrite length_app. simpl. lia. }
      rewrite nth_error_app2, Nat.sub_diag in Hd by lia.
      simpl in Hd. inversion Hd; subst l; clear Hd.
      rewrite expected_prev_app in Hp by lia.
      rewrite <- (scan_previous_hash _ _ H1) in Hp.
      eexists. rewrite verify_lines_app, H1. cbn [bind verify_lines].
      rewrite (verify_line_dict _ _ _ _ _ Hp Hh). cbn [bind].
      split; [reflexivity |]. cbn [is_valid].
      rewrite link_finding_same, tamper_finding_same, Hv1. reflexivity.
Qed.

(** C3. [verify_chain] returns [True] exactly when every line decodes to a
    record whose [prev_hash] is the hash expected at its place and whose
    [hash] is the digest of its content; whenever it returns, its verdict is
    the conjunction of the checks made, [True] exactly when no error was
    printed; an absent or empty log is valid and nothing is printed. *)
Theorem verify_chain_verdict_is_conjunction :
  (forall lines,
      (exists fs, verify_chain (Some lines) = Ok (true, fs))
      <-> (forall i, i < List.length lines -> passes lines i))
  /\ (forall log,
         match verify_chain log with
         | Ok (b, fs) => b = no_finding fs
         | Raise _ => True
         end)
  /\ verify_chain None = Ok (true, [])
  /\ verify_chain (Some []) = Ok (true, []).
Proof.
  split; [| split; [| split; reflexivity]].
  - intros lines. rewrite <- scan_valid_iff, verify_chain_scan. unfold scan.
    simpl lines_of. split.
    + intros (fs & H). bind_inv H as st Hst. injection H as Hv _.
      exists st. split; [exact Hst | exact Hv].
    + intros (st & Hst & Hv). exists (printed st). rewrite Hst. simpl.
      rewrite Hv. reflexivity.
  - intros log. destruct (verify_chain log) as [[b fs] | e] eqn:E; [| exact I].
    exact (verify_chain_verdict _ _ _ E).
Qed.

(** ** Tampering with one stored record *)

(** [record[k] = v]: the value of an existing key is replaced where it
    stands, a new key goes last. *)
Fixpoint set_field (k : string) (v : json) (d : dict) : dict :=
  match d with
  | [] => [(k, v)]
  | (k', v') :: rest =>
      if String.eqb k' k then (k', v) :: rest
      else (k', v') :: set_field k v rest
  end.

Lemma lookup_set_field_other (k k' : string) (v : json) (d : dict) :
  k <> k' -> lookup k' (set_field k v d) = lookup k' d.
Proof.
  intros Hne. induction d as [| [k0 v0] rest IH]; simpl.
  - destruct (String.eqb_spec k k'); [contradiction | reflexivity].
  - destruct (String.eqb_spec k0 k) as [-> | Hk]; simpl.
    + destruct (String.eqb_spec k k'); [contradiction | reflexivity].
    + rewrite IH. reflexivity.
Qed.

Lemma lookup_set_field_same (k : string) (v : json) (d : dict) :
  lookup k (set_field k v d) = Some v.
Proof.
  induction d as [| [k0 v0] rest IH]; simpl.
  - rewrite String.eqb_refl. reflexivity.
  - destruct (String.eqb_spec k0 k) as [-> | Hk]; simpl.
    + rewrite String.eqb_refl. reflexivity.
    + destruct (String.eqb_spec k0 k); [contradiction | exact IH].
Qed.

(** The line at position [i] rewritten by [f], the others kept. *)
Fixpoint update_line (i : nat) (f : line -> line) (lines : list line)
  : list line :=
  match lines, i with
  | [], _ => []
  | l :: rest, O => f l :: rest
  | l :: rest, S j => l :: update_line j f rest
  end.

Definition tamper (k : string) (v : json) (l : line) : line :=
  match l with
  | Decoded (JObj d) => Decoded (JObj (set_field k v d))
  | other => other
  end.

(** The flag and the printed errors are carried along: a run from the same
    expected hash makes the same findings whatever was found before. *)
Lemma verify_line_frame (h : string) (v v0 : bool) (out out0 : list finding)
  (n : nat) (l : line) (st' : verifier) :
  verify_line (Verifier h v out) n l = Ok st' ->
  exists fs,
    st' = Verifier (previous_hash st') (v && no_finding fs) (out ++ fs)
    /\ verify_line (Verifier h v0 out0) n l
       = Ok (Verifier (previous_hash st') (v0 && no_finding fs) (out0 ++ fs)).
Proof.
  intros H. destruct (verify_line_Ok _ _ _ _ H) as [-> | (d & p & s & -> & Hp & Hs)].
  - inversion H; subst. exists [(n, DecodeError)]. simpl.
    rewrite !andb_false_r. split; reflexivity.
  - rewrite (verify_line_dict (Verifier h v out) n d _ _ Hp Hs) in H.
    rewrite (verify_line_dict (Verifier h v0 out0) n d _ _ Hp Hs).
    inversion H; subst; simpl.
    eexists. split; reflexivity.
Qed.

Lemma verify_lines_frame (lines : list line) :
  forall i h v out st',
    verify_lines lines i (Verifier h v out) = Ok st' ->
    exists fs,
      st' = Verifier (previous_hash st') (v && no_finding fs) (out ++ fs)
      /\ forall v0 out0,
           verify_lines lines i (Verifier h v0 out0)
           = Ok (Verifier (previous_hash st') (v0 && no_finding fs) (out0 ++ fs)).
Proof.
  induction lines as [| l lines IH]; intros i h v out st' H; simpl in H.
  - inversion H; subst. exists []. simpl. rewrite app_nil_r, andb_true_r.
    split; [reflexivity |]. intros v0 out0.
    rewrite app_nil_r, andb_true_r. reflexivity.
  - bind_inv H as st1 H1.
    destruct (@verify_line_frame _ _ true _ [] _ _ _ H1) as (fs & E1 & F1).
    rewrite E1 in H. destruct (IH _ _ _ _ _ H) as (gs & E2 & F2).
    exists (fs ++ gs)%list. split.
    + rewrite E2 at 1. rewrite no_finding_app, andb_assoc, app_assoc.
      reflexivity.
    + intros v0 out0. cbn [verify_lines].
      destruct (@verify_line_frame _ _ v0 _ out0 _ _ _ H1) as (fs' & E1' & F1').
      assert (fs' = fs) as ->.
      { rewrite E1 in E1'. inversion E1' as [[Hv Ho]].
        apply app_inv_head in Ho. symmetry. exact Ho. }
      rewrite F1'. cbn [bind]. rewrite F2.
      rewrite no_finding_app, andb_assoc, app_assoc. reflexivity.
Qed.

(** A run that ends with the flag up has found nothing, and none of its
    lines raised. *)
Lemma verify_lines_clean (lines : list line) (i : nat) (st st' : verifier) :
  verify_lines lines i st = Ok st' ->
  is_valid st' = true ->
  is_valid st = true /\ printed st' = printed st.
Proof.
  intros H Hv. destruct (verify_lines_printed _ _ _ _ H) as (fs & Hfs & Hb).
  rewrite Hv in Hb. symmetry in Hb. apply andb_prop in Hb.
  destruct Hb as [Hst Hno]. destruct fs; [| discriminate Hno].
  rewrite app_nil_r in Hfs. split; assumption.
Qed.

Lemma verify_line_clean (st st' : verifier) (n : nat) (l : line) :
  verify_line st n l = Ok st' ->
  is_valid st' = true ->
  is_valid st = true
  /\ printed st' = printed st
  /\ exists d, l = Decoded (JObj d)
               /\ lookup "prev_hash" d = Some (JStr (previous_hash st))
               /\ lookup "hash" d = Some (JStr (digest d))
               /\ previous_hash st' = digest d.
Proof.
  intros H Hv.
  destruct (verify_line_Ok _ _ _ _ H) as [-> | (d & p & s & -> & Hp & Hs)].
  - inversion H; subst st'. discriminate Hv.
  - rewrite (verify_line_dict st n d _ _ Hp Hs) in H. inversion H; subst st'; clear H.
    cbn [is_valid printed previous_hash] in *.
    apply andb_prop in Hv. destruct Hv as [Hst Hno].
    rewrite no_finding_app in Hno. apply andb_prop in Hno.
    destruct Hno as [Hl Ht]. unfold link_finding in *. unfold tamper_finding in *.
    destruct (eq_str p (previous_hash st)) eqn:Ep; [| discriminate Hl].
    destruct (eq_str s (digest d)) eqn:Es; [| discriminate Ht].
    apply eq_str_true in Ep, Es. subst p s.
    rewrite !app_nil_r. repeat split; try assumption.
    exists d. repeat split; assumption.
Qed.

Lemma link_finding_diff (expected s : string) (n : nat) :
  s <> expected -> link_finding expected n (JStr s) = [(n, ChainLinkError)].
Proof.
  intros H. unfold link_finding, eq_str.
  destruct (String.eqb_spec s expected); [contradiction | reflexivity].
Qed.

Lemma tamper_finding_diff (d : dict) (s : string) (n : nat) :
  s <> digest d -> tamper_finding d n (JStr s) = [(n, TamperError)].
Proof.
  intros H. unfold tamper_finding, eq_str.
  destruct (String.eqb_spec s (digest d)); [contradiction | reflexivity].
Qed.

(** The hash expected after a decoded line is its recomputed digest, whatever
    its stored [hash] says. *)
Lemma verify_line_previous_hash (st st' : verifier) (n : nat) (d : dict) :
  verify_line st n (Decoded (JObj d)) = Ok st' -> previous_hash st' = digest d.
Proof.
  intros H.
  destruct (verify_line_Ok _ _ _ _ H) as [E | (d0 & p & s & E & Hp & Hs)];
    [discriminate E |].
  inversion E; subst d0.
  rewrite (verify_line_dict st n d _ _ Hp Hs) in H. inversion H. reflexivity.
Qed.

(** One record of a valid chain is replaced by a record with the same
    [prev_hash] and [hash] and another digest. *)
Lemma replaced_record_findings (pre post : list line) (d d' : dict) :
  verify_chain (Some (pre ++ Decoded (JObj d) :: post)) = Ok (true, []) ->
  lookup "prev_hash" d' = lookup "prev_hash" d ->
  lookup "hash" d' = lookup "hash" d ->
  digest d' <> digest d ->
  verify_chain (Some (pre ++ Decoded (JObj d') :: post))
  = Ok (false,
        (S (List.length pre), TamperError)
        :: match post with
           | [] => []
           | _ :: _ => [(S (S (List.length pre)), ChainLinkError)]
           end).
Proof.
  intros H Hp' Hh' Hne.
  rewrite verify_chain_scan in *. unfold scan in *. simpl lines_of in *.
  bind_inv H as st Hst. injection H as Hv Hout.
  rewrite verify_lines_app in *. bind_inv Hst as st1 H1. rewrite H1.
  cbn [bind verify_lines] in *. bind_inv Hst as st2 H2.
  destruct (verify_lines_clean _ _ _ _ Hst Hv) as [Hv2 _].
  destruct (verify_line_clean _ _ _ _ H2 Hv2) as (Hv1 & Ho2 & d0 & E & Hp & Hh & Hd).
  inversion E; subst d0; clear E.
  destruct (verify_lines_clean _ _ _ _ H1 Hv1) as [_ Ho1].
  destruct st1 as [h1 v1 out1]. destruct st2 as [h2 v2 out2].
  cbn [is_valid printed previous_hash] in *. subst v1 v2 h2 out2 out1.
  rewrite <- Hp' in Hp. rewrite <- Hh' in Hh.
  rewrite (verify_line_dict (Verifier h1 true []) _ d' _ _ Hp Hh).
  cbn [bind previous_hash is_valid printed].
  rewrite link_finding_same.
  rewrite tamper_finding_diff by (intros E; apply Hne; symmetry; exact E).
  cbn [app no_finding andb].
  rewrite Nat.add_0_l, Nat.add_1_r in *.
  destruct post as [| l2 rest].
  - reflexivity.
  - cbn [verify_lines] in *. bind_inv Hst as st3 H3.
    destruct (verify_lines_clean _ _ _ _ Hst Hv) as [Hv3 Ho].
    destruct (verify_line_clean _ _ _ _ H3 Hv3) as (_ & Ho3 & d2 & -> & Hp2 & Hh2 & Hd2).
    cbn [previous_hash printed] in *.
    rewrite (verify_line_dict _ _ d2 _ _ Hp2 Hh2).
    cbn [bind previous_hash is_valid printed].
    rewrite link_finding_diff by (intros E; apply Hne; symmetry; exact E).
    rewrite tamper_finding_same. cbn [app no_finding andb].
    destruct st3 as [h3 v3 out3]. cbn [is_valid printed previous_hash] in *.
    subst h3 v3 out3.
    destruct (verify_lines_frame _ _ _ _ _ _ Hst) as (fs & E & F).
    apply (f_equal printed) in E. cbn [printed] in E.
    rewrite Hout in E. cbn [app] in E. subst fs.
    rewrite F. cbn [bind is_valid printed app andb].
    rewrite Nat.add_1_r. reflexivity.
Qed.

(** C4 (amended). After a decoded line the verifier expects the recomputed
    digest of its content, not its stored [hash].  So when one field other
    than [hash] and [prev_hash] of one record of a valid chain is given
    another value, and the digest of the record changes with it,
    [verify_chain] returns [False] and reports a [TamperError] on that line,
    a [ChainLinkError] on the next line when there is one, and nothing
    else. *)
Theorem tampered_field_findings (pre post : list line) (d : dict)
  (k : string) (v : json) :
  verify_chain (Some (pre ++ Decoded (JObj d) :: post)) = Ok (true, []) ->
  k <> "hash" ->
  k <> "prev_hash" ->
  digest (set_field k v d) <> digest d ->
  (forall st n record st',
      verify_line st n (Decoded (JObj record)) = Ok st' ->
      previous_hash st' = digest record)
  /\ verify_chain (Some (pre ++ Decoded (JObj (set_field k v d)) :: post))
     = Ok (false,
           (S (List.length pre), TamperError)
           :: match post with
              | [] => []
              | _ :: _ => [(S (S (List.length pre)), ChainLinkError)]
              end).
Proof.
  intros H Hk1 Hk2 Hne. split.
  - intros st n record st'. apply verify_line_previous_hash.
  - apply replaced_record_findings with (d := d); try assumption;
      apply lookup_set_field_other; assumption.
Qed.

Definition record_1_dict : dict := Eval vm_compute in record_dict RECORD_1.

Definition line_2 : line := Eval vm_compute in nth 1 two_records Undecodable.

Lemma tampered_field_findings_witness :
  verify_chain
    (Some (update_line 0 (tamper "output" (JStr "TAMPERED OUTPUT")) two_records))
  = Ok (false, [(1, TamperError); (2, ChainLinkError)]).
Proof.
  assert (H : verify_chain (Some ([] ++ Decoded (JObj record_1_dict) :: [line_2]))
              = Ok (true, []))
    by (vm_compute; reflexivity).
  assert (Hne : digest (set_field "output" (JStr "TAMPERED OUTPUT") record_1_dict)
                <> digest record_1_dict)
    by (vm_compute; discriminate).
  assert (Hk1 : "output" <> "hash") by discriminate.
  assert (Hk2 : "output" <> "prev_hash") by discriminate.
  exact (proj2 (tampered_field_findings [] [line_2] record_1_dict "output"
                  (JStr "TAMPERED OUTPUT") H Hk1 Hk2 Hne)).
Defined.

(** C4, as stated, fails: on the log of the two decisions, giving the field
    [hash] of the first record another value makes [verify_chain] report
    the [TamperError] on line 1 and nothing on line 2, and giving its
    [prev_hash] another value adds a [ChainLinkError] on line 1 itself. *)
Lemma single_field_mutation_counterexample :
  verify_chain (Some two_records) = Ok (true, [])
  /\ verify_chain
       (Some (update_line 0 (tamper "hash" (JStr "TAMPERED")) two_records))
     = Ok (false, [(1, TamperError)])
  /\ verify_chain
       (Some (update_line 0 (tamper "prev_hash" (JStr "TAMPERED")) two_records))
     = Ok (false, [(1, ChainLinkError); (1, TamperError); (2, ChainLinkError)]).
Proof. vm_compute. repeat split. Qed.

(** What the two other fields give in general. *)
Lemma tampered_hash_findings (pre post : list line) (d : dict) (s : string) :
  verify_chain (Some (pre ++ Decoded (JObj d) :: post)) = Ok (true, []) ->
  s <> digest d ->
  verify_chain (Some (pre ++ Decoded (JObj (set_field "hash" (JStr s) d)) :: post))
  = Ok (false, [(S (List.length pre), TamperError)]).
Proof.
  intros H Hne.
  assert (Hd : digest (set_field "hash" (JStr s) d) = digest d).
  { unfold digest. do 2 f_equal. f_equal. clear.
    induction d as [| [k0 v0] rest IH]; [reflexivity |]. simpl.
    destruct (String.eqb_spec k0 "hash") as [-> | Hk]; simpl.
    - reflexivity.
    - destruct (String.eqb_spec k0 "hash"); [contradiction |].
      simpl. rewrite IH. reflexivity. }
  rewrite verify_chain_scan in *. unfold scan in *. simpl lines_of in *.
  bind_inv H as st Hst. injection H as Hv Hout.
  rewrite verify_lines_app in *. bind_inv Hst as st1 H1. rewrite H1.
  cbn [bind verify_lines] in *. bind_inv Hst as st2 H2.
  destruct (verify_lines_clean _ _ _ _ Hst Hv) as [Hv2 _].
  destruct (verify_line_clean _ _ _ _ H2 Hv2) as (Hv1 & Ho2 & d0 & E & Hp & Hh & Hprev).
  inversion E; subst d0; clear E.
  destruct (verify_lines_clean _ _ _ _ H1 Hv1) as [_ Ho1].
  destruct st1 as [h1 v1 out1]. destruct st2 as [h2 v2 out2].
  cbn [is_valid printed previous_hash] in *. subst v1 v2 h2 out2 out1.
  rewrite <- (lookup_set_field_other "hash" "prev_hash" (JStr s) d) in Hp
    by discriminate.
  rewrite (verify_line_dict (Verifier h1 true []) _ _ _ _ Hp
             (lookup_set_field_same "hash" (JStr s) d)).
  cbn [bind previous_hash is_valid printed].
  rewrite link_finding_same. unfold tamper_finding. rewrite Hd.
  fold (tamper_finding d (0 + List.length pre + 1) (JStr s)).
  rewrite tamper_finding_diff by exact Hne.
  cbn [app no_finding andb].
  destruct (verify_lines_frame _ _ _ _ _ _ Hst) as (fs & E & F).
  apply (f_equal printed) in E. cbn [printed] in E.
  rewrite Hout in E. cbn [app] in E. subst fs.
  rewrite F. cbn [bind is_valid printed app andb].
  rewrite Nat.add_0_l, Nat.add_1_r. reflexivity.
Qed.

(** ** The tail hash *)

(** The tail hash as the spec words it: the [hash] of the last line of the
    log that decodes to a record, the genesis hash when no line does. *)
Fixpoint last_parsed_record (lines : list line) : option dict :=
  match lines with
  | [] => None
  | l :: rest =>
      match last_parsed_record rest with
      | Some d => Some d
      | None =>
          match l with
          | Decoded (JObj d) => Some d
          | _ => None
          end
      end
  end.

Definition last_parsed_hash (lines : list line) : json :=
  match last_parsed_record lines with
  | Some d =>
      match lookup "hash" d with
      | Some h => h
      | None => JStr genesis_hash
      end
  | None => JStr genesis_hash
  end.

Definition one_record : list line := [Decoded (JObj record_1_dict)].

Definition RECORD_2 : DecisionRecord :=
  Eval vm_compute in
    match log_call (File one_record None) DECISION_2 with
    | Ok (r, _) => r
    | Raise _ => RECORD_1
    end.

(** C5, as stated, fails: when the last line of the log does not decode,
    [get_last_hash] gives the genesis hash although an earlier line decodes
    to a record, and the record then appended carries the genesis hash as
    its [prev_hash]. *)
Lemma undecodable_last_line_counterexample :
  get_last_hash (Some (one_record ++ [Undecodable])) = Ok (JStr genesis_hash)
  /\ last_parsed_hash (one_record ++ [Undecodable]) = JStr (hash RECORD_1)
  /\ hash RECORD_1 <> genesis_hash
  /\ exists r log', log_call (File (one_record ++ [Undecodable]) None)
                      DECISION_2
                    = Ok (r, log')
                    /\ prev_hash r = genesis_hash.
Proof.
  split; [reflexivity |].
  split; [vm_compute; reflexivity |].
  split; [vm_compute; discriminate |].
  eexists. eexists. split; [vm_compute; reflexivity | vm_compute; reflexivity].
Qed.

(** C5 (amended). The [prev_hash] of the record [log_decision] appends is
    the tail hash [get_last_hash] reads, and that is: the genesis hash, the
    SHA-256 of the text [genesis_block] in lowercase hexadecimal, when the
    log is absent or empty or when its last line does not decode; the field
    [hash] of the last line when that line decodes to a dict, the genesis
    hash when the dict has no such field. *)
Theorem appended_record_prev_hash (log log' : disk_file) (c : call)
  (r : DecisionRecord) :
  log_call log c = Ok (r, log') ->
  get_last_hash (read log) = Ok (JStr (prev_hash r))
  /\ match rev (lines_of (read log)) with
     | [] => prev_hash r = genesis_hash
     | Undecodable :: _ => prev_hash r = genesis_hash
     | Decoded last_record :: _ =>
         exists d, last_record = JObj d
                   /\ match lookup "hash" d with
                      | Some h => h = JStr (prev_hash r)
                      | None => prev_hash r = genesis_hash
                      end
     end
  /\ genesis_hash = SHA256.hexdigest "genesis_block"
  /\ genesis_hash
     = "a1c0749b5b39ae000916b037528fe92676b68cc28ce91dc6762e50698c98214e".
Proof.
  intros H. destruct (log_call_Ok _ _ _ _ H) as (Hprev & _).
  split; [exact Hprev |]. split; [| split; [reflexivity | exact genesis_hash_value]].
  destruct (read log) as [lines |]; [| inversion Hprev; reflexivity].
  simpl lines_of. destruct lines as [| l lines _] using rev_ind.
  - inversion Hprev; reflexivity.
  - rewrite rev_app_distr. simpl. rewrite get_last_hash_last_line in Hprev.
    destruct l as [| last_record]; [inversion Hprev; reflexivity |].
    destruct last_record; simpl in Hprev; try discriminate Hprev.
    exists members. split; [reflexivity |].
    destruct (lookup "hash" members); inversion Hprev; reflexivity.
Qed.

Lemma appended_record_prev_hash_witness :
  log_call (File one_record None) DECISION_2
  = Ok (RECORD_2,
        File (one_record ++ [Decoded (JObj (record_dict RECORD_2))]) None)
  /\ get_last_hash (Some one_record) = Ok (JStr (prev_hash RECORD_2))
  /\ prev_hash RECORD_2 = hash RECORD_1.
Proof.
  assert (H : log_call (File one_record None) DECISION_2
              = Ok (RECORD_2,
                    File (one_record ++ [Decoded (JObj (record_dict RECORD_2))])
                         None))
    by (vm_compute; reflexivity).
  split; [exact H |].
  split.
  - exact (proj1 (appended_record_prev_hash (File one_record None) _ DECISION_2
                    RECORD_2 H)).
  - vm_compute. reflexivity.
Defined.

(** ** Lines the verifier cannot read *)

(** A line on which the body of the loop does not raise: it does not
    decode, or it decodes to a dict with both hash fields. *)
Definition checkable (l : line) : bool :=
  match l with
  | Undecodable => true
  | Decoded (JObj d) =>
      (is_some (lookup "prev_hash" d) && is_some (lookup "hash" d))%bool
  | Decoded _ => false
  end.

(** A finding under the next line number. *)
Definition bump (f : finding) : finding := (S (fst f), snd f).


Lemma verify_line_undecodable (st : verifier) (n : nat) :
  verify_line st n Undecodable = Ok (report st (n, DecodeError)).
Proof. reflexivity. Qed.

Lemma checkable_dict (l : line) :
  checkable l = true ->
  l = Undecodable
  \/ exists d p h, l = Decoded (JObj d)
                   /\ lookup "prev_hash" d = Some p
                   /\ lookup "hash" d = Some h.
Proof.
  destruct l as [| record]; [left; reflexivity |].
  destruct record; try discriminate. cbn [checkable]. intros H. right.
  apply andb_prop in H. destruct H as [Hp Hh].
  apply is_some_true in Hp, Hh. destruct Hp as [p Hp]. destruct Hh as [h Hh].
  exists members, p, h. repeat split; assumption.
Qed.

(** The errors of a run carry the numbers of its lines, and the run from
    the next number, whatever was found before, finds the same under the
    next numbers; lines that are checkable do not raise. *)
Lemma verify_lines_bump (lines : list line) :
  forallb checkable lines = true ->
  forall i h v out,
  exists h' fs,
    Forall (fun f => i < fst f <= i + List.length lines) fs
    /\ verify_lines lines i (Verifier h v out)
       = Ok (Verifier h' (v && no_finding fs) (out ++ fs))
    /\ forall v0 out0,
         verify_lines lines (S i) (Verifier h v0 out0)
         = Ok (Verifier h' (v0 && no_finding fs) (out0 ++ map bump fs)).
Proof.
  induction lines as [| l lines IH]; intros Hc i h v out.
  - exists h, []. split; [constructor |].
    split; [| intros v0 out0]; cbn [verify_lines map no_finding];
      rewrite app_nil_r, andb_true_r; reflexivity.
  - cbn [forallb] in Hc. apply andb_prop in Hc. destruct Hc as [Hl Hc].
    assert (Hone : exists h1 fs1,
               Forall (fun f => fst f = i + 1) fs1
               /\ (forall v0 out0,
                      verify_line (Verifier h v0 out0) (i + 1) l
                      = Ok (Verifier h1 (v0 && no_finding fs1) (out0 ++ fs1)))
               /\ (forall v0 out0,
                      verify_line (Verifier h v0 out0) (S i + 1) l
                      = Ok (Verifier h1 (v0 && no_finding fs1)
                              (out0 ++ map bump fs1)))).
    { destruct (checkable_dict _ Hl) as [-> | (d & p & s & -> & Hp & Hs)].
      - exists h, [(i + 1, DecodeError)].
        split; [repeat constructor |].
        split; intros v0 out0; rewrite verify_line_undecodable;
          unfold report; cbn [previous_hash printed no_finding map bump fst snd];
          rewrite andb_false_r; reflexivity.
      - exists (digest d), (link_finding h (i + 1) p ++ tamper_finding d (i + 1) s).
        split.
        + unfold link_finding, tamper_finding.
          destruct (eq_str p h), (eq_str s (digest d)); repeat constructor.
        + split; intros v0 out0;
            rewrite (verify_line_dict _ _ _ _ _ Hp Hs);
            cbn [previous_hash is_valid printed]; [reflexivity |].
          unfold link_finding, tamper_finding.
          destruct (eq_str p h), (eq_str s (digest d)); reflexivity. }
    destruct Hone as (h1 & fs1 & Hn1 & E1 & E1').
    destruct (IH Hc (S i) h1 (v && no_finding fs1) (out ++ fs1))
      as (h' & fs2 & Hn2 & E2 & _).
    exists h', (fs1 ++ fs2). split; [| split].
    + apply Forall_app. rewrite Forall_forall in Hn1, Hn2.
      split; apply Forall_forall; intros f Hf; cbn [List.length].
      * rewrite (Hn1 f Hf). lia.
      * specialize (Hn2 f Hf). lia.
    + cbn [verify_lines]. rewrite E1. cbn [bind]. rewrite E2.
      rewrite no_finding_app, andb_assoc, app_assoc. reflexivity.
    + intros v0 out0. cbn [verify_lines]. rewrite E1'. cbn [bind].
      destruct (IH Hc (S i) h1 true []) as (h'' & fs2' & _ & E2' & E2'').
      destruct (IH Hc (S i) h1 (v0 && no_finding fs1) (out0 ++ map bump fs1))
        as (h3 & fs3 & _ & E3 & E3').
      pose proof (verify_lines_frame _ _ _ _ _ _ E2) as (gs & Eg & Fg).
      cbn [previous_hash] in Eg, Fg.
      injection Eg as _ Eg. apply app_inv_head in Eg. subst gs.
      pose proof (Fg (v0 && no_finding fs1)%bool (out0 ++ map bump fs1)) as F3.
      rewrite E3 in F3. injection F3 as -> _ F3. apply app_inv_head in F3.
      subst fs3. rewrite E3'.
      rewrite map_app, no_finding_app, andb_assoc, app_assoc. reflexivity.
Qed.






(** C6 does not hold of the code: a line that decodes but is no record with
    both hash fields makes [verify_chain] raise, and the lines after it are
    never read.  Here lines 3 and 4 follow the two logged records; line 4
    does not decode and is not reported. *)
Theorem verify_chain_raises_on_incomplete_record :
  verify_chain (Some (two_records ++ [Decoded (JObj []); Undecodable]))
  = Raise (KeyError "prev_hash")
  /\ verify_chain
       (Some (two_records
              ++ [Decoded (JObj [("prev_hash", JStr (hash RECORD_2))]);
                  Undecodable]))
     = Raise (KeyError "hash")
  /\ verify_chain (Some (two_records ++ [Decoded (JInt 5); Undecodable]))
     = Raise TypeError
  /\ verify_chain (Some (two_records ++ [Undecodable; Undecodable]))
     = Ok (false, [(3, DecodeError); (4, DecodeError)]).
Proof. vm_compute. repeat split. Qed.

(** ** The [log] command and its required fields *)

Lemma all_in_dict (d : dict) (fields : list string) :
  all_in (JObj d) fields
  = Ok (forallb (fun f => is_some (lookup f d)) fields).
Proof.
  induction fields as [| f fields IH]; [reflexivity |].
  cbn [all_in contains bind forallb].
  destruct (is_some (lookup f d)); [exact IH | reflexivity].
Qed.

(** C8. When the input lacks one or more of the required fields, the
    command ends in [click.Abort] after the error that names them: exactly
    the required fields the input does not have.  [log_decision] is not
    called, no record is built and the log is left as it was. *)
Theorem log_rejects_missing_fields (store : disk_file) (d : dict)
  (defaults : stamp) (field : string) :
  In field required_fields ->
  lookup field d = None ->
  exists missing,
    log store (Some (JObj d)) defaults
    = (Abort (BadParameter_missing missing), store)
    /\ In field missing
    /\ (forall f, In f missing <-> In f required_fields /\ lookup f d = None).
Proof.
  intros Hreq Hnone.
  exists (filter (fun f => negb (is_some (lookup f d))) required_fields).
  assert (Hall : forallb (fun f => is_some (lookup f d)) required_fields = false).
  { destruct (forallb _ required_fields) eqn:E; [| reflexivity].
    rewrite forallb_forall in E. specialize (E field Hreq).
    rewrite Hnone in E. discriminate E. }
  split; [| split].
  - unfold log, log_body. rewrite all_in_dict, Hall. reflexivity.
  - apply filter_In. split; [exact Hreq |]. rewrite Hnone. reflexivity.
  - intros f. rewrite filter_In. split; intros [Hin Hf]; split; try exact Hin.
    + destruct (lookup f d); [discriminate Hf | reflexivity].
    + rewrite Hf. reflexivity.
Qed.

Lemma log_rejects_missing_fields_witness :
  exists missing,
    log (File two_records None)
        (Some (JObj [("model", JStr "m1"); ("config", JObj [("temp", JInt 1)]);
                     ("prompt", JStr "p1")]))
        (Stamp "id" "now")
    = (Abort (BadParameter_missing missing), File two_records None)
    /\ In "output" missing.
Proof.
  destruct (log_rejects_missing_fields (File two_records None)
              [("model", JStr "m1"); ("config", JObj [("temp", JInt 1)]);
               ("prompt", JStr "p1")]
              (Stamp "id" "now") "output"
              (or_intror (or_intror (or_intror (or_intror (or_introl eq_refl)))))
              eq_refl) as (missing & H & Hin & _).
  exists missing. split; [exact H | exact Hin].
Defined.

Example log_command_logs_DECISION_1 :
  log NoFile
      (Some (JObj [("model", JStr "test-model-1"); ("config", JObj [("temp", JInt 1)]);
                   ("prompt", JStr "prompt 1"); ("context_sources", JArr [JStr "c1"]);
                   ("output", JStr "output 1"); ("confidence", JFloat "0.1")]))
      (arg_stamp DECISION_1)
  = (Logged RECORD_1, File one_record None).
Proof. vm_compute. reflexivity. Qed.

(** ** The locator *)

(** The lines the loop of [replay_decision] goes past: those that do not
    decode, and the dicts whose [decision_id] is not the one asked for. *)
Definition passed_over (decision_id : string) (l : line) : bool :=
  match l with
  | Undecodable => true
  | Decoded (JObj d) =>
      match lookup "decision_id" d with
      | Some found => negb (eq_str found decision_id)
      | None => true
      end
  | Decoded _ => false
  end.

Lemma replay_lines_passed_over (pre rest : list line) (decision_id : string)
  (defaults : stamp) :
  forallb (passed_over decision_id) pre = true ->
  replay_lines (pre ++ rest) decision_id defaults
  = replay_lines rest decision_id defaults.
Proof.
  induction pre as [| l pre IH]; intros H; [reflexivity |].
  cbn [forallb] in H. apply andb_prop in H. destruct H as [Hl Hpre].
  cbn [app replay_lines]. destruct l as [| record]; [exact (IH Hpre) |].
  destruct record; try discriminate Hl. cbn [get passed_over] in *.
  destruct (lookup "decision_id" members) as [found |]; cbn [bind].
  - destruct (eq_str found decision_id); [discriminate Hl | exact (IH Hpre)].
  - exact (IH Hpre).
Qed.

Lemma DecisionRecord_init_raises (defaults : stamp) (kw : dict) (e : exn) :
  DecisionRecord_init defaults kw = Raise e ->
  e = ValidationError (invalid_fields defaults kw).
Proof.
  unfold DecisionRecord_init. intros H.
  repeat match type of H with
         | match ?o with _ => _ end = _ => destruct o
         end;
    inversion H; reflexivity.
Qed.




(** C10 (amended). When every line before it either does not decode or is
    a dict with another [decision_id], a line that decodes to a dict with
    the [decision_id] asked for and that [DecisionRecord] does not accept
    makes [replay_decision] raise the [ValidationError] of that dict: the
    line is not skipped and the answer is not the not-found one. *)
Theorem replay_raises_on_invalid_match (pre post : list line) (d : dict)
  (decision_id : string) (defaults : stamp) (e : exn) :
  forallb (passed_over decision_id) pre = true ->
  lookup "decision_id" d = Some (JStr decision_id) ->
  DecisionRecord_init defaults d = Raise e ->
  replay_decision (Some (pre ++ Decoded (JObj d) :: post)) decision_id defaults
  = Raise (ValidationError (invalid_fields defaults d)).
Proof.
  intros Hpre Hid He. unfold replay_decision.
  rewrite replay_lines_passed_over by exact Hpre.
  cbn [replay_lines get]. rewrite Hid. cbn [bind eq_str].
  rewrite String.eqb_refl. cbn [parse_obj]. rewrite He.
  rewrite (DecisionRecord_init_raises _ _ _ He). reflexivity.
Qed.

Definition incomplete_record : dict :=
  [("decision_id", JStr "abc"); ("model", JStr "m1")].

Lemma replay_raises_on_invalid_match_witness :
  replay_decision
    (Some ([Undecodable] ++ two_records
           ++ Decoded (JObj incomplete_record) :: two_records))
    "abc" (Stamp "id" "now")
  = Raise (ValidationError
             ["config"; "prompt"; "context_sources"; "output"; "prev_hash";
              "hash"]).
Proof.
  exact (replay_raises_on_invalid_match (Undecodable :: two_records) two_records
           incomplete_record "abc" (Stamp "id" "now")
           (ValidationError
              ["config"; "prompt"; "context_sources"; "output"; "prev_hash";
               "hash"])
           eq_refl eq_refl eq_refl).
Defined.

(** C10, as stated, fails: line 2 is the first line with the [decision_id]
    asked for, it decodes and [DecisionRecord] does not accept it, but line
    1 decodes to a number, which has no [get]: [AttributeError] is raised
    there, no [ValidationError] at line 2. *)
Lemma number_line_before_match_counterexample :
  replay_decision
    (Some [Decoded (JInt 5); Decoded (JObj incomplete_record)])
    "abc" (Stamp "id" "now")
  = Raise AttributeError
  /\ lookup "decision_id" incomplete_record = Some (JStr "abc")
  /\ DecisionRecord_init (Stamp "id" "now") incomplete_record
     = Raise (ValidationError
                ["config"; "prompt"; "context_sources"; "output"; "prev_hash";
                 "hash"]).
Proof. repeat split. Qed.





(** * Further properties of the code *)

From Stdlib Require Import Sorted Permutation.

(** ** cli.py: the [verify] and [replay] commands *)

(** How these commands end: normally, in [click.Abort], or with the
    exception the call let through. *)
Inductive command_end : Type :=
| Completed
| Aborted
| Uncaught (e : exn).

Definition verify (store : log_file) : command_end :=
  match verify_chain store with
  | Ok (true, _) => Completed
  | Ok (false, _) => Aborted
  | Raise e => Uncaught e
  end.


(** Runs of the [log] command one after the other, each with its decision
    file and what the default factories draw. *)
Fixpoint log_runs (store : disk_file) (runs : list (option json * stamp))
  : disk_file :=
  match runs with
  | [] => store
  | (decision_file, defaults) :: rest =>
      log_runs (snd (log store decision_file defaults)) rest
  end.

Definition is_dict (v : json) : bool :=
  match v with JObj _ => true | _ => false end.

(** ** What the [log] command does to the log *)

Lemma log_body_Ok (store store' : disk_file) (data : json) (defaults : stamp)
  (r : DecisionRecord) :
  log_body store data defaults = Ok (r, store') ->
  exists c, arg_stamp c = defaults /\ log_call store c = Ok (r, store').
Proof.
  unfold log_body. intros H. bind_inv H as complete Hc.
  destruct complete.
  - bind_inv H as a_model H1. bind_inv H as a_config H2.
    bind_inv H as a_prompt H3. bind_inv H as a_sources H4.
    bind_inv H as a_output H5. bind_inv H as a_confidence H6.
    bind_inv H as a_flags H7.
    exists (Call a_model a_config a_prompt a_sources a_output a_confidence
                 a_flags defaults).
    split; [reflexivity | exact H].
  - bind_inv H as missing Hm. discriminate H.
Qed.


(** X1. The [log] command changes the file in one way only.  When it
    reports a logged decision, one line was written after the last byte of
    the file: the lines that ended in a newline are kept, one line follows
    them and the file ends in a newline.  That line is the line of the
    record reported, unless text other than blanks followed the last
    newline: the record is glued onto that text and the line does not
    decode.  So on a file that ended in a newline, or was empty or absent,
    the lines read afterwards are the lines read before and the line of the
    record.  In every other case the file is what it was. *)
Theorem log_only_appends (store : disk_file) (decision_file : option json)
  (defaults : stamp) :
  match log store decision_file defaults with
  | (Logged r, store') =>
      store' = File (complete_lines store
                     ++ [match open_end store with
                         | Some (Text _) => Undecodable
                         | _ => Decoded (JObj (record_dict r))
                         end]) None
      /\ (open_end store = None ->
          read store'
          = Some (lines_of (read store) ++ [Decoded (JObj (record_dict r))]))
  | (_, store') => store' = store
  end.
Proof.
  unfold log. destruct decision_file as [data |]; [| reflexivity].
  destruct (log_body store data defaults) as [[r store'] | e] eqn:E;
    [| reflexivity].
  destruct (log_body_Ok _ _ _ _ _ E) as (c & _ & Hc).
  destruct (log_call_Ok _ _ _ _ Hc) as (_ & _ & _ & _ & _ & _ & _ & _ & _ & ->).
  split.
  - destruct store as [| complete [[| l] |]]; reflexivity.
  - intros H. apply read_append_line_closed. exact H.
Qed.

Lemma log_only_appends_witness :
  log (File [] (Some (Text (Decoded (JObj record_1_dict)))))
      (Some (JObj [("model", JStr "test-model-2");
                   ("config", JObj [("temp", JInt 2)]);
                   ("prompt", JStr "prompt 2");
                   ("context_sources", JArr [JStr "c2"]);
                   ("output", JStr "output 2");
                   ("confidence", JFloat "0.2")]))
      (arg_stamp DECISION_2)
  = (Logged RECORD_2, File [Undecodable] None)
  /\ File [Undecodable] None
     = File (complete_lines (File [] (Some (Text (Decoded (JObj record_1_dict)))))
             ++ [Undecodable]) None.
Proof.
  pose proof (log_only_appends
                (File [] (Some (Text (Decoded (JObj record_1_dict)))))
                (Some (JObj [("model", JStr "test-model-2");
                             ("config", JObj [("temp", JInt 2)]);
                             ("prompt", JStr "prompt 2");
                             ("context_sources", JArr [JStr "c2"]);
                             ("output", JStr "output 2");
                             ("confidence", JFloat "0.2")]))
                (arg_stamp DECISION_2)) as H.
  assert (E : log (File [] (Some (Text (Decoded (JObj record_1_dict)))))
                  (Some (JObj [("model", JStr "test-model-2");
                               ("config", JObj [("temp", JInt 2)]);
                               ("prompt", JStr "prompt 2");
                               ("context_sources", JArr [JStr "c2"]);
                               ("output", JStr "output 2");
                               ("confidence", JFloat "0.2")]))
                  (arg_stamp DECISION_2)
              = (Logged RECORD_2, File [Undecodable] None))
    by (vm_compute; reflexivity).
  rewrite E in H. destruct H as [H _]. split; [exact E | exact H].
Defined.

(** X2. A decision file whose JSON is not an object is never logged: the
    command ends in [click.Abort] on a [TypeError] or an [AttributeError]
    and the log is what it was, also when the value is a list or a text
    that holds the five names. *)
Theorem log_aborts_on_non_object (store : disk_file) (data : json)
  (defaults : stamp) :
  is_dict data = false ->
  exists e, log store (Some data) defaults = (Abort e, store)
            /\ (e = TypeError \/ e = AttributeError).
Proof.
  intros Hd. unfold log.
  assert (H : exists e, log_body store data defaults = Raise e
                        /\ (e = TypeError \/ e = AttributeError)).
  { unfold log_body.
    destruct data as [| b | n | repr | s | items | members];
      try discriminate Hd;
      try (exists TypeError; split; [reflexivity | left; reflexivity]).
    - destruct (all_in (JStr s) required_fields) as [[|] | e] eqn:E.
      + exists TypeError. split; [reflexivity | left; reflexivity].
      + exists AttributeError. split; [reflexivity | right; reflexivity].
      + exfalso. unfold required_fields in E. cbn [all_in contains bind] in E.
        repeat match type of E with
               | (if ?b then _ else _) = _ => destruct b
               end; discriminate E.
    - destruct (all_in (JArr items) required_fields) as [[|] | e] eqn:E.
      + exists TypeError. split; [reflexivity | left; reflexivity].
      + exists AttributeError. split; [reflexivity | right; reflexivity].
      + exfalso. unfold required_fields in E. cbn [all_in contains bind] in E.
        repeat match type of E with
               | (if ?b then _ else _) = _ => destruct b
               end; discriminate E. }
  destruct H as (e & -> & He). exists e. split; [reflexivity | exact He].
Qed.

Lemma log_aborts_on_non_object_witness :
  exists e,
    log (File two_records None)
        (Some (JArr [JStr "model"; JStr "config"; JStr "prompt";
                     JStr "context_sources"; JStr "output"]))
        (Stamp "id" "now")
    = (Abort e, File two_records None)
    /\ (e = TypeError \/ e = AttributeError).
Proof.
  exact (log_aborts_on_non_object (File two_records None)
           (JArr [JStr "model"; JStr "config"; JStr "prompt";
                  JStr "context_sources"; JStr "output"])
           (Stamp "id" "now") eq_refl).
Defined.

(** ** Appending and verifying *)

(** A log that verifies is intact: [get_last_hash] gives the hash the
    verifier expects next. *)
Lemma valid_intact (log : log_file) (fs : list finding) :
  verify_chain log = Ok (true, fs) -> intact log.
Proof.
  rewrite verify_chain_scan. intros H. bind_inv H as st Hst.
  injection H as Hv Hfs. unfold scan in Hst.
  destruct (verify_lines_clean _ _ _ _ Hst Hv) as [_ Hout].
  cbn [printed] in Hout. destruct st as [h v out]. cbn [is_valid printed] in *.
  subst v out. subst fs. exists h. split; [exact Hst |].
  destruct log as [lines |]; [| inversion Hst; reflexivity].
  cbn [lines_of] in Hst.
  destruct lines as [| l ls _] using rev_ind; [inversion Hst; reflexivity |].
  rewrite verify_lines_app in Hst. bind_inv Hst as st1 H1.
  cbn [verify_lines] in Hst. bind_inv Hst as st2 H2. inversion Hst; subst st2.
  destruct (verify_line_clean _ _ _ _ H2 eq_refl)
    as (_ & _ & d & -> & _ & Hh & Hd).
  rewrite get_last_hash_last_line. cbn [get previous_hash] in *.
  rewrite Hh, Hd. reflexivity.
Qed.




(** X4. Two calls in a row are linked when the record of the first is a
    line of its own: the [prev_hash] of the record of the second call is the
    [hash] of the record of the first.  When text other than blanks followed
    the last newline of the file, the first record is glued onto it, the
    line does not decode, and the second record starts from the genesis
    hash. *)
Theorem consecutive_records_are_linked (log log1 log2 : disk_file)
  (c1 c2 : call) (r1 r2 : DecisionRecord) :
  log_call log c1 = Ok (r1, log1) ->
  log_call log1 c2 = Ok (r2, log2) ->
  prev_hash r2 = match open_end log with
                 | Some (Text _) => genesis_hash
                 | _ => hash r1
                 end.
Proof.
  intros H1 H2.
  destruct (log_call_Ok _ _ _ _ H1) as (_ & _ & _ & _ & _ & _ & _ & _ & _ & ->).
  destruct (log_call_Ok _ _ _ _ H2) as (Hlast & _).
  rewrite read_append_line, get_last_hash_last_line in Hlast.
  destruct (open_end log) as [[| l] |]; cbn [written_line] in Hlast;
    cbn [get lookup record_dict] in Hlast; simpl in Hlast;
    inversion Hlast; reflexivity.
Qed.

Lemma consecutive_records_are_linked_witness :
  prev_hash RECORD_2 = hash RECORD_1
  /\ log_call (File [] (Some (Text (Decoded (JObj record_1_dict))))) DECISION_2
     = Ok (RECORD_2, File [Undecodable] None)
  /\ log_call (File [Undecodable] None) DECISION_1
     = Ok (RECORD_1, File [Undecodable; Decoded (JObj record_1_dict)] None)
  /\ prev_hash RECORD_1 = genesis_hash.
Proof.
  assert (H1 : log_call NoFile DECISION_1 = Ok (RECORD_1, File one_record None))
    by (vm_compute; reflexivity).
  assert (H2 : log_call (File one_record None) DECISION_2
               = Ok (RECORD_2,
                     File (one_record ++ [Decoded (JObj (record_dict RECORD_2))])
                          None))
    by (vm_compute; reflexivity).
  assert (H3 : log_call (File [] (Some (Text (Decoded (JObj record_1_dict)))))
                 DECISION_2
               = Ok (RECORD_2, File [Undecodable] None))
    by (vm_compute; reflexivity).
  assert (H4 : log_call (File [Undecodable] None) DECISION_1
               = Ok (RECORD_1,
                     File [Undecodable; Decoded (JObj record_1_dict)] None))
    by (vm_compute; reflexivity).
  split; [| split; [exact H3 | split; [exact H4 |]]].
  - exact (consecutive_records_are_linked NoFile (File one_record None) _
             DECISION_1 DECISION_2 RECORD_1 RECORD_2 H1 H2).
  - exact (consecutive_records_are_linked
             (File [] (Some (Text (Decoded (JObj record_1_dict)))))
             (File [Undecodable] None) _
             DECISION_2 DECISION_1 RECORD_2 RECORD_1 H3 H4).
Defined.

Lemma log_keeps_intact (store : disk_file) (decision_file : option json)
  (defaults : stamp) :
  open_end store = None -> intact (read store) ->
  open_end (snd (log store decision_file defaults)) = None
  /\ intact (read (snd (log store decision_file defaults))).
Proof.
  intros Hend Hi. unfold log.
  destruct decision_file as [data |]; [| split; assumption].
  destruct (log_body store data defaults) as [[r store'] | e] eqn:E;
    [| split; assumption].
  destruct (log_body_Ok _ _ _ _ _ E) as (c & _ & Hc).
  cbn [snd]. split.
  - eapply log_call_closes; eassumption.
  - eapply intact_log_call; eassumption.
Qed.

(** X5. On a log file that ends in a newline, or is empty or absent:
    whatever decision files the [log] command is run on, one run after the
    other, well-formed or not, the [verify] command completes afterwards if
    it completed before. *)
Theorem verify_completes_after_log_runs (store : disk_file)
  (runs : list (option json * stamp)) :
  open_end store = None ->
  verify (read store) = Completed ->
  verify (read (log_runs store runs)) = Completed.
Proof.
  intros Hend Hv.
  assert (Hi : intact (read store)).
  { unfold verify in Hv.
    destruct (verify_chain (read store)) as [[[|] fs] | e] eqn:E;
      try discriminate Hv.
    eapply valid_intact. exact E. }
  clear Hv. revert store Hend Hi.
  induction runs as [| [decision_file defaults] runs IH]; intros store Hend Hi.
  - destruct Hi as (h & Hscan & _). unfold verify. cbn [log_runs].
    rewrite verify_chain_scan, Hscan. reflexivity.
  - cbn [log_runs].
    destruct (log_keeps_intact store decision_file defaults Hend Hi)
      as [Hend' Hi'].
    apply IH; assumption.
Qed.

Lemma verify_completes_after_log_runs_witness :
  verify
    (read
       (log_runs NoFile
          [ (Some (JObj [("model", JStr "m1"); ("config", JObj []);
                         ("prompt", JStr "p1"); ("context_sources", JArr []);
                         ("output", JStr "o1")]),
             Stamp "id-1" "t1");
            (None, Stamp "id-2" "t2");
            (Some (JObj [("model", JStr "m3")]), Stamp "id-3" "t3");
            (Some (JObj [("model", JStr "m4"); ("config", JObj []);
                         ("prompt", JStr "p4"); ("context_sources", JArr [JStr "c"]);
                         ("output", JStr "o4"); ("risk_flags", JArr [JStr "pii"])]),
             Stamp "id-4" "t4") ]))
  = Completed.
Proof.
  exact (verify_completes_after_log_runs NoFile _ eq_refl eq_refl).
Defined.

Example log_runs_sample_length :
  List.length
    (lines_of
       (read
          (log_runs NoFile
             [ (Some (JObj [("model", JStr "m1"); ("config", JObj []);
                            ("prompt", JStr "p1"); ("context_sources", JArr []);
                            ("output", JStr "o1")]),
                Stamp "id-1" "t1");
               (None, Stamp "id-2" "t2");
               (Some (JObj [("model", JStr "m3")]), Stamp "id-3" "t3");
               (Some (JObj [("model", JStr "m4"); ("config", JObj []);
                            ("prompt", JStr "p4");
                            ("context_sources", JArr [JStr "c"]);
                            ("output", JStr "o4");
                            ("risk_flags", JArr [JStr "pii"])]),
                Stamp "id-4" "t4") ])))
  = 2.
Proof. vm_compute. reflexivity. Qed.



(** X7. A last line that decodes to something else than a dict blocks the
    log: [get_last_hash] calls [get] on the value, so every later call of
    [log_decision] raises [AttributeError], whatever its arguments, and
    writes nothing; the line may end in a newline or not. *)
Theorem log_decision_blocked_by_non_object_tail (lines : list line) (v : json)
  (c : call) :
  is_dict v = false ->
  get_last_hash (Some (lines ++ [Decoded v])) = Raise AttributeError
  /\ forall log, read log = Some (lines ++ [Decoded v]) ->
                 log_call log c = Raise AttributeError.
Proof.
  intros Hv.
  assert (H : get_last_hash (Some (lines ++ [Decoded v])) = Raise AttributeError).
  { rewrite get_last_hash_last_line. destruct v; try reflexivity.
    discriminate Hv. }
  split; [exact H |]. intros log Hread.
  unfold log_call, log_decision. rewrite Hread, H. reflexivity.
Qed.

Lemma log_decision_blocked_by_non_object_tail_witness :
  get_last_hash (Some (two_records ++ [Decoded (JArr [])])) = Raise AttributeError
  /\ log_call (File (two_records ++ [Decoded (JArr [])]) None) DECISION_1
     = Raise AttributeError
  /\ log_call (File two_records (Some (Text (Decoded (JArr []))))) DECISION_1
     = Raise AttributeError.
Proof.
  destruct (log_decision_blocked_by_non_object_tail two_records (JArr [])
              DECISION_1 eq_refl) as [H Hall].
  split; [exact H |]. split.
  - exact (Hall (File (two_records ++ [Decoded (JArr [])]) None) eq_refl).
  - exact (Hall (File two_records (Some (Text (Decoded (JArr []))))) eq_refl).
Defined.




(** ** What the verifier accepts *)

(** X9. The verifier cannot see that the end of the log was cut off: every
    beginning of a log that verifies verifies too. *)
Theorem truncated_log_verifies (kept cut : list line) (fs : list finding) :
  verify_chain (Some (kept ++ cut)) = Ok (true, fs) ->
  verify_chain (Some kept) = Ok (true, []).
Proof.
  rewrite !verify_chain_scan. unfold scan. cbn [lines_of]. intros H.
  bind_inv H as st Hst. injection H as Hv _.
  rewrite verify_lines_app in Hst. bind_inv Hst as st1 H1.
  destruct (verify_lines_clean _ _ _ _ Hst Hv) as [Hv1 _].
  destruct (verify_lines_clean _ _ _ _ H1 Hv1) as [_ Hout].
  rewrite H1. cbn [bind printed] in *. rewrite Hv1, Hout. reflexivity.
Qed.

Lemma truncated_log_verifies_witness :
  verify_chain (Some one_record) = Ok (true, []).
Proof.
  assert (H : verify_chain (Some (one_record ++ [line_2])) = Ok (true, []))
    by (vm_compute; reflexivity).
  exact (truncated_log_verifies one_record [line_2] [] H).
Defined.

(** X10. The verifier checks each record against itself and against the one
    before it, nothing else: in a log that verifies, the last record can be
    replaced by any record with the same [prev_hash] whose [hash] is its own
    digest, and the log still verifies. *)
Theorem rewritten_last_record_verifies (pre : list line) (d d' : dict) :
  verify_chain (Some (pre ++ [Decoded (JObj d)])) = Ok (true, []) ->
  lookup "prev_hash" d' = lookup "prev_hash" d ->
  lookup "hash" d' = Some (JStr (digest d')) ->
  verify_chain (Some (pre ++ [Decoded (JObj d')])) = Ok (true, []).
Proof.
  intros H Hp Hh.
  rewrite verify_chain_scan in *. unfold scan in *. cbn [lines_of] in *.
  bind_inv H as st Hst. injection H as Hv Hout.
  rewrite verify_lines_app in *. bind_inv Hst as st1 H1. rewrite H1.
  cbn [bind verify_lines] in *. bind_inv Hst as st2 H2.
  inversion Hst; subst st2; clear Hst.
  destruct (verify_line_clean _ _ _ _ H2 Hv) as (Hv1 & Ho & d0 & E & Hp0 & _ & _).
  inversion E; subst d0; clear E.
  rewrite <- Hp in Hp0.
  rewrite (verify_line_dict st1 _ d' _ _ Hp0 Hh). cbn [bind is_valid printed].
  rewrite link_finding_same, tamper_finding_same, Hv1, app_nil_r, <- Ho, Hout.
  reflexivity.
Qed.

Lemma rewritten_last_record_verifies_witness :
  verify_chain
    (Some ([] ++ [Decoded
                    (JObj (set_field "hash"
                             (JStr (digest (set_field "output" (JStr "FORGED")
                                              record_1_dict)))
                             (set_field "output" (JStr "FORGED") record_1_dict)))]))
  = Ok (true, []).
Proof.
  assert (H : verify_chain (Some ([] ++ [Decoded (JObj record_1_dict)]))
              = Ok (true, []))
    by (vm_compute; reflexivity).
  apply (rewritten_last_record_verifies [] record_1_dict _ H).
  - reflexivity.
  - vm_compute. reflexivity.
Defined.

(** X11. In a log that verifies the stored hashes are linked: every line
    decodes to a dict, the [prev_hash] of the first is the genesis hash and
    the [prev_hash] of every other one is the stored [hash] of the line
    before it. *)
Theorem valid_log_is_linked (lines : list line) (fs : list finding) :
  verify_chain (Some lines) = Ok (true, fs) ->
  (forall l, nth_error lines 0 = Some l ->
             exists d, l = Decoded (JObj d)
                       /\ lookup "prev_hash" d = Some (JStr genesis_hash))
  /\ (forall i l l',
         nth_error lines i = Some l ->
         nth_error lines (S i) = Some l' ->
         exists d d', l = Decoded (JObj d) /\ l' = Decoded (JObj d')
                      /\ lookup "prev_hash" d' = lookup "hash" d).
Proof.
  intros H.
  assert (Hall : forall i, i < List.length lines -> passes lines i).
  { apply scan_valid_iff. rewrite verify_chain_scan in H. unfold scan in H.
    cbn [lines_of] in H. bind_inv H as st Hst. injection H as Hv _.
    exists st. split; [exact Hst | exact Hv]. }
  split.
  - intros l Hl.
    destruct (Hall 0) as (d & Hd & Hp & _).
    { apply nth_error_Some. rewrite Hl. discriminate. }
    rewrite Hl in Hd. inversion Hd; subst l. exists d.
    split; [reflexivity | exact Hp].
  - intros i l l' Hl Hl'.
    destruct (Hall i) as (d & Hd & _ & Hh).
    { apply nth_error_Some. rewrite Hl. discriminate. }
    destruct (Hall (S i)) as (d' & Hd' & Hp' & _).
    { apply nth_error_Some. rewrite Hl'. discriminate. }
    cbn [expected_prev] in Hp'. rewrite Hd in Hp'.
    rewrite Hl in Hd. rewrite Hl' in Hd'. inversion Hd; inversion Hd'; subst.
    exists d, d'. rewrite Hp', Hh. repeat split; reflexivity.
Qed.

Lemma valid_log_is_linked_witness :
  (forall l, nth_error two_records 0 = Some l ->
             exists d, l = Decoded (JObj d)
                       /\ lookup "prev_hash" d = Some (JStr genesis_hash))
  /\ (forall i l l',
         nth_error two_records i = Some l ->
         nth_error two_records (S i) = Some l' ->
         exists d d', l = Decoded (JObj d) /\ l' = Decoded (JObj d')
                      /\ lookup "prev_hash" d' = lookup "hash" d).
Proof.
  assert (H : verify_chain (Some two_records) = Ok (true, []))
    by (vm_compute; reflexivity).
  exact (valid_log_is_linked two_records [] H).
Defined.

(** ** What the digest depends on *)

Lemma hashable_data_set_hash (d : dict) (v : json) :
  hashable_data (set_field "hash" v d) = hashable_data d.
Proof.
  induction d as [| [k0 v0] rest IH]; [reflexivity |].
  cbn [set_field]. destruct (String.eqb_spec k0 "hash") as [-> | Hk].
  - reflexivity.
  - unfold hashable_data in *. cbn [filter fst].
    rewrite (proj2 (String.eqb_neq _ _) Hk). cbn [negb]. f_equal. exact IH.
Qed.

(** X12. The stored [hash] takes no part in the digest: setting the field
    [hash] of a record to any value, or adding it, leaves [calculate_hash]
    unchanged. *)
Theorem calculate_hash_ignores_hash_field (d : dict) (v : json) :
  calculate_hash (JObj (set_field "hash" v d)) = calculate_hash (JObj d).
Proof.
  rewrite !calculate_hash_dict. unfold digest.
  rewrite hashable_data_set_hash. reflexivity.
Qed.

Lemma compare_lt_trans (s1 : string) :
  forall s2 s3,
    String.compare s1 s2 = Lt -> String.compare s2 s3 = Lt ->
    String.compare s1 s3 = Lt.
Proof.
  induction s1 as [| c1 s1 IH]; intros [| c2 s2] [| c3 s3] H12 H23;
    try discriminate; try reflexivity.
  cbn [String.compare] in *.
  destruct (Ascii.compare c1 c2) eqn:E12; try discriminate H12;
    destruct (Ascii.compare c2 c3) eqn:E23; try discriminate H23.
  - apply Ascii.compare_eq_iff in E12, E23. subst c2 c3.
    unfold Ascii.compare. rewrite N.compare_refl. exact (IH _ _ H12 H23).
  - apply Ascii.compare_eq_iff in E12. subst c2. rewrite E23. reflexivity.
  - apply Ascii.compare_eq_iff in E23. subst c3. rewrite E12. reflexivity.
  - unfold Ascii.compare in *. rewrite N.compare_lt_iff in *.
    rewrite (proj2 (N.compare_lt_iff _ _) (N.lt_trans _ _ _ E12 E23)).
    reflexivity.
Qed.

Lemma leb_trans (s1 s2 s3 : string) :
  String.leb s1 s2 = true -> String.leb s2 s3 = true -> String.leb s1 s3 = true.
Proof.
  unfold String.leb. intros H12 H23.
  destruct (String.compare s1 s2) eqn:E12; try discriminate H12;
    destruct (String.compare s2 s3) eqn:E23; try discriminate H23.
  - apply String.compare_eq_iff in E12. subst s2. rewrite E23. reflexivity.
  - apply String.compare_eq_iff in E12. subst s2. rewrite E23. reflexivity.
  - apply String.compare_eq_iff in E23. subst s3. rewrite E12. reflexivity.
  - rewrite (compare_lt_trans _ _ _ E12 E23). reflexivity.
Qed.

(** The order of [sort_items]. *)
Definition key_le (x y : string * string) : Prop :=
  String.leb (fst x) (fst y) = true.

Lemma insert_item_perm (x : string * string) (l : list (string * string)) :
  Permutation (insert_item x l) (x :: l).
Proof.
  induction l as [| y l IH]; cbn [insert_item]; [reflexivity |].
  destruct (String.leb (fst x) (fst y)); [reflexivity |].
  rewrite IH. apply perm_swap.
Qed.

Lemma sort_items_perm (l : list (string * string)) :
  Permutation (sort_items l) l.
Proof.
  induction l as [| x l IH]; [reflexivity |].
  unfold sort_items in *. cbn [fold_right].
  rewrite insert_item_perm. apply perm_skip. exact IH.
Qed.

Lemma insert_item_sorted (x : string * string) (l : list (string * string)) :
  StronglySorted key_le l -> StronglySorted key_le (insert_item x l).
Proof.
  induction l as [| y l IH]; intros Hs; cbn [insert_item].
  - constructor; constructor.
  - inversion Hs as [| ? ? Hl Hy]; subst.
    destruct (String.leb (fst x) (fst y)) eqn:E.
    + constructor; [exact Hs |]. constructor; [exact E |].
      eapply Forall_impl; [| exact Hy].
      intros z Hz. unfold key_le in *. eapply leb_trans; eassumption.
    + constructor; [exact (IH Hl) |].
      assert (Hyx : key_le y x).
      { unfold key_le. destruct (String.leb_total (fst x) (fst y)) as [H | H];
          [rewrite H in E; discriminate E | exact H]. }
      eapply Permutation_Forall; [symmetry; apply insert_item_perm |].
      constructor; assumption.
Qed.

Lemma sort_items_sorted (l : list (string * string)) :
  StronglySorted key_le (sort_items l).
Proof.
  induction l as [| x l IH]; [constructor |].
  unfold sort_items in *. cbn [fold_right]. apply insert_item_sorted. exact IH.
Qed.

(** Two sorted lists with the same items, no key twice, are one list. *)
Lemma sorted_items_unique (l1 : list (string * string)) :
  forall l2,
    StronglySorted key_le l1 -> StronglySorted key_le l2 ->
    Permutation l1 l2 -> NoDup (map fst l1) -> l1 = l2.
Proof.
  induction l1 as [| a l1 IH]; intros l2 H1 H2 Hp Hn.
  - apply Permutation_nil in Hp. subst. reflexivity.
  - destruct l2 as [| b l2].
    { apply Permutation_sym, Permutation_nil in Hp. discriminate Hp. }
    inversion H1 as [| ? ? Hs1 Ha]; subst.
    inversion H2 as [| ? ? Hs2 Hb]; subst.
    inversion Hn as [| ? ? Hnot Hn1]; subst.
    assert (a = b) as <-.
    { assert (Hb1 : In b (a :: l1))
        by (eapply Permutation_in; [symmetry; exact Hp | left; reflexivity]).
      assert (Ha2 : In a (b :: l2))
        by (eapply Permutation_in; [exact Hp | left; reflexivity]).
      destruct Hb1 as [E | Hb1]; [exact E |].
      destruct Ha2 as [E | Ha2]; [symmetry; exact E |].
      exfalso. apply Hnot.
      rewrite Forall_forall in Ha, Hb.
      rewrite (String.leb_antisym _ _ (Ha b Hb1) (Hb a Ha2)).
      apply in_map. exact Hb1. }
    f_equal. apply IH; try assumption.
    eapply Permutation_cons_inv. exact Hp.
Qed.

Lemma Permutation_filter_dict (f : string * json -> bool) (d1 d2 : dict) :
  Permutation d1 d2 -> Permutation (filter f d1) (filter f d2).
Proof.
  induction 1 as [| x l l' _ IH | x y l | l l' l'' _ IH1 _ IH2]; cbn [filter].
  - reflexivity.
  - destruct (f x); [apply perm_skip |]; exact IH.
  - destruct (f x), (f y); try reflexivity. apply perm_swap.
  - etransitivity; eassumption.
Qed.

Lemma NoDup_keys_filter (f : string * json -> bool) (d : dict) :
  NoDup (map fst d) -> NoDup (map fst (filter f d)).
Proof.
  induction d as [| x d IH]; intros H; cbn [filter]; [constructor |].
  inversion H as [| ? ? Hnot Hn]; subst.
  destruct (f x); [| exact (IH Hn)].
  cbn [map]. constructor; [| exact (IH Hn)].
  intros Hin. apply Hnot. apply in_map_iff in Hin.
  destruct Hin as (y & Hy & Hin). apply filter_In in Hin.
  rewrite <- Hy. apply in_map. exact (proj1 Hin).
Qed.

Lemma json_dumps_permutation (d1 d2 : dict) :
  Permutation d1 d2 -> NoDup (map fst d1) ->
  json_dumps (JObj d1) = json_dumps (JObj d2).
Proof.
  intros Hp Hn.
  change (json_dumps (JObj d1))
    with ("{" ++ String.concat ", "
                   (map item_text
                      (sort_items (map (fun kv => (fst kv, json_dumps (snd kv)))
                                       d1)))
              ++ "}")%string.
  change (json_dumps (JObj d2))
    with ("{" ++ String.concat ", "
                   (map item_text
                      (sort_items (map (fun kv => (fst kv, json_dumps (snd kv)))
                                       d2)))
              ++ "}")%string.
  do 4 f_equal.
  apply sorted_items_unique; try apply sort_items_sorted.
  - rewrite !sort_items_perm. apply Permutation_map. exact Hp.
  - eapply Permutation_NoDup.
    + apply Permutation_map. symmetry. apply sort_items_perm.
    + rewrite map_map. cbn [fst]. exact Hn.
Qed.

(** X13. The digest does not depend on the order of the keys: two dicts
    with the same members, no key twice, have the same [calculate_hash]. *)
Theorem calculate_hash_ignores_key_order (d1 d2 : dict) :
  Permutation d1 d2 ->
  NoDup (map fst d1) ->
  calculate_hash (JObj d1) = calculate_hash (JObj d2).
Proof.
  intros Hp Hn. cbn [calculate_hash]. do 2 f_equal.
  apply json_dumps_permutation.
  - apply Permutation_filter_dict. exact Hp.
  - apply NoDup_keys_filter. exact Hn.
Qed.

Lemma calculate_hash_ignores_key_order_witness :
  calculate_hash
    (JObj [("output", JStr "o1"); ("model", JStr "m1"); ("hash", JStr "h")])
  = calculate_hash
      (JObj [("hash", JStr "h"); ("model", JStr "m1"); ("output", JStr "o1")]).
Proof.
  apply calculate_hash_ignores_key_order.
  - apply Permutation_rev.
  - repeat constructor; cbn; intuition discriminate.
Defined.

(** ** Where the verifier reports *)

Definition line_of (f : finding) : nat := fst f.

Lemma StronglySorted_app {A : Type} (R : A -> A -> Prop) (l1 l2 : list A) :
  StronglySorted R l1 -> StronglySorted R l2 ->
  (forall x y, In x l1 -> In y l2 -> R x y) ->
  StronglySorted R (l1 ++ l2).
Proof.
  induction l1 as [| a l1 IH]; intros H1 H2 H; [exact H2 |].
  inversion H1 as [| ? ? Hs Ha]; subst. cbn [app]. constructor.
  - apply IH; [exact Hs | exact H2 |].
    intros x y Hx Hy. apply H; [right; exact Hx | exact Hy].
  - apply Forall_app. split; [exact Ha |].
    apply Forall_forall. intros y Hy. apply H; [left; reflexivity | exact Hy].
Qed.

(** The findings of one line carry its number. *)
Lemma verify_line_numbers (st st' : verifier) (n : nat) (l : line) :
  verify_line st n l = Ok st' ->
  exists fs, printed st' = printed st ++ fs
             /\ Forall (fun f => line_of f = n) fs.
Proof.
  intros H.
  destruct (verify_line_Ok _ _ _ _ H) as [-> | (d & p & h & -> & Hp & Hh)].
  - inversion H; subst. exists [(n, DecodeError)]. split; [reflexivity |].
    constructor; [reflexivity | constructor].
  - rewrite (verify_line_dict _ _ _ _ _ Hp Hh) in H. inversion H; subst.
    eexists. split; [reflexivity |].
    unfold link_finding, tamper_finding.
    destruct (eq_str p (previous_hash st)), (eq_str h (digest d));
      repeat constructor.
Qed.

Lemma verify_lines_numbers (lines : list line) :
  forall i st st',
    verify_lines lines i st = Ok st' ->
    exists fs, printed st' = printed st ++ fs
               /\ Forall (fun f => i < line_of f <= i + List.length lines) fs
               /\ StronglySorted (fun f g => line_of f <= line_of g) fs.
Proof.
  induction lines as [| l lines IH]; intros i st st' H; cbn [verify_lines] in H.
  - inversion H; subst. exists []. rewrite app_nil_r.
    repeat split; constructor.
  - bind_inv H as st1 H1.
    destruct (verify_line_numbers _ _ _ _ H1) as (fs & Hfs & Hn).
    destruct (IH _ _ _ H) as (gs & Hgs & Hrange & Hsorted).
    exists (fs ++ gs). rewrite Hgs, Hfs, app_assoc. split; [reflexivity |].
    rewrite Forall_forall in Hn, Hrange. split.
    + apply Forall_app. split; apply Forall_forall; intros f Hf; cbn [List.length].
      * rewrite (Hn f Hf). lia.
      * specialize (Hrange f Hf). lia.
    + apply StronglySorted_app; [| exact Hsorted |].
      * clear - Hn. induction fs as [| f fs IHfs]; constructor.
        -- apply IHfs. intros g Hg. apply Hn. right. exact Hg.
        -- apply Forall_forall. intros g Hg.
           rewrite (Hn f (or_introl eq_refl)), (Hn g (or_intror Hg)).
           apply le_n.
      * intros f g Hf Hg. rewrite (Hn f Hf). specialize (Hrange g Hg). lia.
Qed.

(** X14. Every error [verify_chain] prints names a line of the file, from 1
    to the number of lines, and the errors come in the order of the
    lines. *)
Theorem findings_follow_the_lines (lines : list line) (b : bool)
  (fs : list finding) :
  verify_chain (Some lines) = Ok (b, fs) ->
  Forall (fun f => 1 <= line_of f <= List.length lines) fs
  /\ StronglySorted (fun f g => line_of f <= line_of g) fs.
Proof.
  rewrite verify_chain_scan. unfold scan. cbn [lines_of]. intros H.
  bind_inv H as st Hst. injection H as _ Hfs.
  destruct (verify_lines_numbers _ _ _ _ Hst) as (gs & Hgs & Hrange & Hsorted).
  cbn [printed app] in Hgs. rewrite <- Hfs, Hgs. split; [| exact Hsorted].
  eapply Forall_impl; [| exact Hrange]. intros f Hf. cbn beta in Hf. lia.
Qed.

Lemma findings_follow_the_lines_witness :
  Forall (fun f => 1 <= line_of f <= List.length
                                       (update_line 0 (tamper "prev_hash" (JStr "x"))
                                          two_records))
         [(1, ChainLinkError); (1, TamperError); (2, ChainLinkError)]
  /\ StronglySorted (fun f g => line_of f <= line_of g)
       [(1, ChainLinkError); (1, TamperError); (2, ChainLinkError)].
Proof.
  assert (H : verify_chain
                (Some (update_line 0 (tamper "prev_hash" (JStr "x")) two_records))
              = Ok (false, [(1, ChainLinkError); (1, TamperError);
                            (2, ChainLinkError)]))
    by (vm_compute; reflexivity).
  exact (findings_follow_the_lines _ _ _ H).
Defined.

(** ** When the verifier returns *)

Lemma verify_lines_checkable (lines : list line) :
  forall i st st',
    verify_lines lines i st = Ok st' -> forallb checkable lines = true.
Proof.
  induction lines as [| l lines IH]; intros i st st' H; [reflexivity |].
  cbn [verify_lines] in H. bind_inv H as st1 H1.
  cbn [forallb]. rewrite (IH _ _ _ H), andb_true_r.
  destruct (verify_line_Ok _ _ _ _ H1) as [-> | (d & p & h & -> & Hp & Hh)].
  - reflexivity.
  - cbn [checkable]. rewrite Hp, Hh. reflexivity.
Qed.

Lemma verify_line_Raise (st : verifier) (n : nat) (l : line) (e : exn) :
  verify_line st n l = Raise e ->
  e = TypeError \/ e = KeyError "prev_hash" \/ e = KeyError "hash".
Proof.
  destruct l as [| record]; [discriminate |]. unfold verify_line.
  destruct record; cbn [getitem bind];
    try (intros H; inversion H; left; reflexivity).
  destruct (lookup "prev_hash" members); cbn [bind];
    [| intros H; inversion H; right; left; reflexivity].
  cbn [calculate_hash bind].
  destruct (lookup "hash" members); cbn [bind]; intros H;
    [discriminate H | inversion H; right; right; reflexivity].
Qed.

Lemma verify_lines_Raise (lines : list line) :
  forall i st e,
    verify_lines lines i st = Raise e ->
    e = TypeError \/ e = KeyError "prev_hash" \/ e = KeyError "hash".
Proof.
  induction lines as [| l lines IH]; intros i st e H; [discriminate H |].
  cbn [verify_lines] in H.
  destruct (verify_line st (i + 1) l) as [st1 | e1] eqn:E1; cbn [bind] in H.
  - exact (IH _ _ _ H).
  - inversion H; subst e1. exact (verify_line_Raise _ _ _ _ E1).
Qed.

(** X21. [verify_chain] returns a verdict exactly on the logs all of whose
    lines are checkable: each does not decode, or decodes to a dict with
    the fields [prev_hash] and [hash].  On every other log it raises, a
    [TypeError] or the [KeyError] of one of the two fields, and gives no
    verdict. *)
Theorem verify_chain_returns_iff_checkable (lines : list line) :
  match verify_chain (Some lines) with
  | Ok _ => forallb checkable lines = true
  | Raise e =>
      forallb checkable lines = false
      /\ (e = TypeError \/ e = KeyError "prev_hash" \/ e = KeyError "hash")
  end.
Proof.
  rewrite verify_chain_scan. unfold scan. cbn [lines_of].
  destruct (verify_lines lines 0 (Verifier genesis_hash true []))
    as [st | e] eqn:E; cbn [bind].
  - exact (verify_lines_checkable _ _ _ _ E).
  - split; [| exact (verify_lines_Raise _ _ _ _ E)].
    destruct (forallb checkable lines) eqn:Hc; [| reflexivity].
    destruct (verify_lines_bump lines Hc 0 genesis_hash true [])
      as (h' & fs & _ & E' & _).
    rewrite E' in E. discriminate E.
Qed.

(** ** Lines taken out, lines put in *)

(** A run that finds nothing does not depend on where the numbering
    starts, nor on what was found before. *)
Lemma clean_run_any_index (rest : list line) :
  forall i h h',
    verify_lines rest i (Verifier h true []) = Ok (Verifier h' true []) ->
    forall j v out,
      verify_lines rest j (Verifier h v out) = Ok (Verifier h' v out).
Proof.
  induction rest as [| l rest IH]; intros i h h' H j v out;
    cbn [verify_lines] in *.
  - inversion H. reflexivity.
  - bind_inv H as st1 H1.
    destruct (verify_lines_clean _ _ _ _ H eq_refl) as [Hv1 Ho1].
    destruct (verify_line_clean _ _ _ _ H1 Hv1)
      as (_ & Ho & d & -> & Hp & Hh & Hd).
    destruct st1 as [h1 v1 out1]. cbn [is_valid printed previous_hash] in *.
    subst h1 v1. rewrite <- Ho1 in Ho. subst out1.
    rewrite (verify_line_dict (Verifier h v out) _ d _ _ Hp Hh).
    cbn [bind previous_hash is_valid printed].
    rewrite link_finding_same, tamper_finding_same, !app_nil_r, andb_true_r.
    exact (IH _ _ _ H _ _ _).
Qed.

(** The pieces of a log that verifies, cut before and after one record. *)
Lemma valid_log_split (pre post : list line) (d : dict) :
  verify_chain (Some (pre ++ Decoded (JObj d) :: post)) = Ok (true, []) ->
  exists h1 h',
    verify_lines pre 0 (Verifier genesis_hash true []) = Ok (Verifier h1 true [])
    /\ h1 = expected_prev pre (List.length pre)
    /\ lookup "prev_hash" d = Some (JStr h1)
    /\ lookup "hash" d = Some (JStr (digest d))
    /\ verify_lines post (S (List.length pre)) (Verifier (digest d) true [])
       = Ok (Verifier h' true []).
Proof.
  rewrite verify_chain_scan. unfold scan. cbn [lines_of]. intros H.
  bind_inv H as st Hst. injection H as Hv Hout.
  rewrite verify_lines_app in Hst. bind_inv Hst as st1 H1.
  cbn [verify_lines] in Hst. bind_inv Hst as st2 H2.
  destruct (verify_lines_clean _ _ _ _ Hst Hv) as [Hv2 Ho].
  destruct (verify_line_clean _ _ _ _ H2 Hv2) as (Hv1 & Ho2 & d0 & E & Hp & Hh & Hd).
  inversion E; subst d0; clear E.
  destruct (verify_lines_clean _ _ _ _ H1 Hv1) as [_ Ho1].
  pose proof (scan_previous_hash _ _ H1) as Hprev.
  destruct st as [h' v out]. destruct st1 as [h1 v1 out1].
  destruct st2 as [h2 v2 out2]. cbn [is_valid printed previous_hash] in *.
  subst v v1 v2 out h2 h1. rewrite Ho2, Ho1 in Ho. subst out1.
  subst out2. rewrite Nat.add_0_l in Hst.
  exists (expected_prev pre (List.length pre)), h'.
  repeat split; assumption.
Qed.

(** X15. Taking a record out of the middle of a log that verifies is seen
    at the line that followed it: when the digest of the record taken out
    is not the hash expected at its place, [verify_chain] returns [False]
    with one [ChainLinkError], on the line that moved up, and nothing
    else. *)
Theorem removed_record_is_reported (pre post : list line) (d : dict)
  (next : line) :
  verify_chain (Some (pre ++ Decoded (JObj d) :: next :: post)) = Ok (true, []) ->
  digest d <> expected_prev pre (List.length pre) ->
  verify_chain (Some (pre ++ next :: post))
  = Ok (false, [(S (List.length pre), ChainLinkError)]).
Proof.
  intros H Hne.
  destruct (valid_log_split _ _ _ H) as (h1 & h' & H1 & Eh1 & _ & _ & Hpost).
  subst h1. cbn [verify_lines] in Hpost. bind_inv Hpost as st3 H3.
  destruct (verify_lines_clean _ _ _ _ Hpost eq_refl) as [Hv3 Ho3].
  destruct (verify_line_clean _ _ _ _ H3 Hv3)
    as (_ & Ho & d2 & -> & Hp2 & Hh2 & Hd2).
  destruct st3 as [h3 v3 out3]. cbn [is_valid printed previous_hash] in *.
  subst h3 v3. rewrite <- Ho3 in Ho. subst out3.
  rewrite verify_chain_scan. unfold scan. cbn [lines_of].
  rewrite verify_lines_app, H1. cbn [bind verify_lines].
  rewrite (verify_line_dict _ _ d2 _ _ Hp2 Hh2).
  cbn [bind previous_hash is_valid printed].
  rewrite link_finding_diff by exact Hne.
  rewrite tamper_finding_same. cbn [app andb no_finding].
  rewrite (clean_run_any_index _ _ _ _ Hpost). cbn [bind is_valid printed].
  rewrite Nat.add_0_l, Nat.add_1_r. reflexivity.
Qed.

Lemma removed_record_is_reported_witness :
  verify_chain (Some ([] ++ line_2 :: []))
  = Ok (false, [(S (List.length (@nil line)), ChainLinkError)]).
Proof.
  assert (H : verify_chain
                (Some ([] ++ Decoded (JObj record_1_dict) :: line_2 :: []))
              = Ok (true, []))
    by (vm_compute; reflexivity).
  assert (Hne : digest record_1_dict <> expected_prev [] (List.length (@nil line)))
    by (vm_compute; discriminate).
  exact (removed_record_is_reported [] [] record_1_dict line_2 H Hne).
Defined.

(** X16. A record written twice is seen at the copy: when the digest of the
    record is not the hash expected at its place, the log with the line
    repeated right after itself gets one [ChainLinkError], on the second of
    the two lines, and nothing else. *)
Theorem repeated_record_is_reported (pre post : list line) (d : dict) :
  verify_chain (Some (pre ++ Decoded (JObj d) :: post)) = Ok (true, []) ->
  digest d <> expected_prev pre (List.length pre) ->
  verify_chain (Some (pre ++ Decoded (JObj d) :: Decoded (JObj d) :: post))
  = Ok (false, [(S (S (List.length pre)), ChainLinkError)]).
Proof.
  intros H Hne.
  destruct (valid_log_split _ _ _ H) as (h1 & h' & H1 & Eh1 & Hp & Hh & Hpost).
  subst h1.
  rewrite verify_chain_scan. unfold scan. cbn [lines_of].
  rewrite verify_lines_app, H1. cbn [bind verify_lines].
  rewrite (verify_line_dict _ _ d _ _ Hp Hh).
  cbn [bind previous_hash is_valid printed].
  rewrite link_finding_same, tamper_finding_same. cbn [app andb no_finding].
  rewrite (verify_line_dict _ _ d _ _ Hp Hh).
  cbn [bind previous_hash is_valid printed].
  rewrite link_finding_diff
    by (intros E; apply Hne; symmetry; exact E).
  rewrite tamper_finding_same. cbn [app andb no_finding].
  rewrite (clean_run_any_index _ _ _ _ Hpost). cbn [bind is_valid printed].
  rewrite Nat.add_0_l, !Nat.add_1_r. reflexivity.
Qed.

Lemma repeated_record_is_reported_witness :
  verify_chain
    (Some ([] ++ Decoded (JObj record_1_dict) :: Decoded (JObj record_1_dict)
              :: [line_2]))
  = Ok (false, [(S (S (List.length (@nil line))), ChainLinkError)]).
Proof.
  assert (H : verify_chain
                (Some ([] ++ Decoded (JObj record_1_dict) :: [line_2]))
              = Ok (true, []))
    by (vm_compute; reflexivity).
  assert (Hne : digest record_1_dict <> expected_prev [] (List.length (@nil line)))
    by (vm_compute; discriminate).
  exact (repeated_record_is_reported [] [line_2] record_1_dict H Hne).
Defined.

(** X17. A line that does not decode is a gap and no more: put anywhere
    into a log that verifies, it is the one error [verify_chain] reports,
    and the records after it are still linked to the one before it. *)
Theorem inserted_undecodable_line_is_a_gap (pre post : list line)
  (fs : list finding) :
  verify_chain (Some (pre ++ post)) = Ok (true, fs) ->
  verify_chain (Some (pre ++ Undecodable :: post))
  = Ok (false, [(S (List.length pre), DecodeError)]).
Proof.
  rewrite !verify_chain_scan. unfold scan. cbn [lines_of]. intros H.
  bind_inv H as st Hst. injection H as Hv _.
  rewrite verify_lines_app in *. bind_inv Hst as st1 H1. rewrite H1.
  destruct (verify_lines_clean _ _ _ _ Hst Hv) as [Hv1 Ho].
  destruct (verify_lines_clean _ _ _ _ H1 Hv1) as [_ Ho1].
  destruct st as [h v out]. destruct st1 as [h1 v1 out1].
  cbn [is_valid printed previous_hash] in *. subst v v1 out1. subst out.
  cbn [bind verify_lines]. rewrite verify_line_undecodable.
  unfold report. cbn [bind previous_hash printed app].
  rewrite (clean_run_any_index _ _ _ _ Hst). cbn [bind is_valid printed].
  rewrite Nat.add_0_l, Nat.add_1_r. reflexivity.
Qed.

Lemma inserted_undecodable_line_is_a_gap_witness :
  verify_chain (Some (one_record ++ Undecodable :: [line_2]))
  = Ok (false, [(S (List.length one_record), DecodeError)]).
Proof.
  assert (H : verify_chain (Some (one_record ++ [line_2])) = Ok (true, []))
    by (vm_compute; reflexivity).
  exact (inserted_undecodable_line_is_a_gap one_record [line_2] [] H).
Defined.

(** X18. A stored [prev_hash] given a wrong value is reported twice on its
    line, as a broken link and, the field being part of the digest, as
    tampering; the line after it, when there is one, gets a
    [ChainLinkError], and no later line is reported. *)
Theorem tampered_prev_hash_findings (pre post : list line) (d : dict)
  (s : string) :
  verify_chain (Some (pre ++ Decoded (JObj d) :: post)) = Ok (true, []) ->
  s <> expected_prev pre (List.length pre) ->
  digest (set_field "prev_hash" (JStr s) d) <> digest d ->
  verify_chain
    (Some (pre ++ Decoded (JObj (set_field "prev_hash" (JStr s) d)) :: post))
  = Ok (false,
        (S (List.length pre), ChainLinkError)
        :: (S (List.length pre), TamperError)
        :: match post with
           | [] => []
           | _ :: _ => [(S (S (List.length pre)), ChainLinkError)]
           end).
Proof.
  intros H Hs Hne.
  destruct (valid_log_split _ _ _ H) as (h1 & h' & H1 & Eh1 & _ & Hh & Hpost).
  subst h1.
  rewrite <- (lookup_set_field_other "prev_hash" "hash" (JStr s) d) in Hh
    by discriminate.
  rewrite verify_chain_scan. unfold scan. cbn [lines_of].
  rewrite verify_lines_app, H1. cbn [bind verify_lines].
  rewrite (verify_line_dict _ _ _ _ _
             (lookup_set_field_same "prev_hash" (JStr s) d) Hh).
  cbn [bind previous_hash is_valid printed].
  rewrite link_finding_diff by exact Hs.
  rewrite tamper_finding_diff by (intros E; apply Hne; symmetry; exact E).
  cbn [app andb no_finding].
  rewrite Nat.add_0_l, Nat.add_1_r.
  destruct post as [| next rest]; [reflexivity |].
  cbn [verify_lines] in *. bind_inv Hpost as st3 H3.
  destruct (verify_lines_clean _ _ _ _ Hpost eq_refl) as [Hv3 Ho3].
  destruct (verify_line_clean _ _ _ _ H3 Hv3)
    as (_ & Ho & d2 & -> & Hp2 & Hh2 & Hd2).
  destruct st3 as [h3 v3 out3]. cbn [is_valid printed previous_hash] in *.
  subst h3 v3. rewrite <- Ho3 in Ho. subst out3.
  rewrite (verify_line_dict _ _ d2 _ _ Hp2 Hh2).
  cbn [bind previous_hash is_valid printed].
  rewrite link_finding_diff by (intros E; apply Hne; symmetry; exact E).
  rewrite tamper_finding_same. cbn [app andb no_finding].
  rewrite (clean_run_any_index _ _ _ _ Hpost). cbn [bind is_valid printed].
  rewrite Nat.add_1_r. reflexivity.
Qed.

Lemma tampered_prev_hash_findings_witness :
  verify_chain
    (Some ([] ++ Decoded (JObj (set_field "prev_hash" (JStr "TAMPERED")
                                  record_1_dict))
              :: [line_2]))
  = Ok (false,
        [(S (List.length (@nil line)), ChainLinkError);
         (S (List.length (@nil line)), TamperError);
         (S (S (List.length (@nil line))), ChainLinkError)]).
Proof.
  assert (H : verify_chain
                (Some ([] ++ Decoded (JObj record_1_dict) :: [line_2]))
              = Ok (true, []))
    by (vm_compute; reflexivity).
  assert (Hs : "TAMPERED" <> expected_prev [] (List.length (@nil line)))
    by (vm_compute; discriminate).
  assert (Hne : digest (set_field "prev_hash" (JStr "TAMPERED") record_1_dict)
                <> digest record_1_dict)
    by (vm_compute; discriminate).
  exact (tampered_prev_hash_findings [] [line_2] record_1_dict "TAMPERED"
           H Hs Hne).
Defined.

(** X19. A stored [hash] given any value that is not the text of the
    digest, a number or [null] as well as another text, is reported as
    tampering on its line and nowhere else: the lines after it are checked
    against the recomputed digest, which the field does not enter. *)
Theorem wrong_stored_hash_findings (pre post : list line) (d : dict) (v : json) :
  verify_chain (Some (pre ++ Decoded (JObj d) :: post)) = Ok (true, []) ->
  eq_str v (digest d) = false ->
  verify_chain (Some (pre ++ Decoded (JObj (set_field "hash" v d)) :: post))
  = Ok (false, [(S (List.length pre), TamperError)]).
Proof.
  intros H Hv.
  destruct (valid_log_split _ _ _ H) as (h1 & h' & H1 & _ & Hp & _ & Hpost).
  rewrite <- (lookup_set_field_other "hash" "prev_hash" v d) in Hp
    by discriminate.
  rewrite verify_chain_scan. unfold scan. cbn [lines_of].
  rewrite verify_lines_app, H1. cbn [bind verify_lines].
  rewrite (verify_line_dict _ _ _ _ _ Hp (lookup_set_field_same "hash" v d)).
  cbn [bind previous_hash is_valid printed].
  rewrite link_finding_same. unfold tamper_finding, digest.
  rewrite hashable_data_set_hash. fold (digest d). rewrite Hv.
  cbn [app andb no_finding].
  rewrite (clean_run_any_index _ _ _ _ Hpost). cbn [bind is_valid printed].
  rewrite Nat.add_0_l, Nat.add_1_r. reflexivity.
Qed.

Lemma wrong_stored_hash_findings_witness :
  verify_chain
    (Some ([] ++ Decoded (JObj (set_field "hash" JNull record_1_dict))
              :: [line_2]))
  = Ok (false, [(S (List.length (@nil line)), TamperError)]).
Proof.
  assert (H : verify_chain
                (Some ([] ++ Decoded (JObj record_1_dict) :: [line_2]))
              = Ok (true, []))
    by (vm_compute; reflexivity).
  exact (wrong_stored_hash_findings [] [line_2] record_1_dict JNull H eq_refl).
Defined.

(** ** The arguments of [log_decision] *)

Definition with_risk_flags (c : call) (v : json) : call :=
  Call (arg_model c) (arg_config c) (arg_prompt c) (arg_context_sources c)
       (arg_output c) (arg_confidence c) v (arg_stamp c).

Lemma falsy_risk_flags (v : json) :
  truthy v = false ->
  (if truthy (if is_None v then JArr [] else v)
   then (if is_None v then JArr [] else v)
   else JArr []) = JArr [].
Proof.
  intros H. destruct (is_None v); [reflexivity |]. rewrite H. reflexivity.
Qed.

(** X20. [risk_flags or []] takes every value that counts as false for the
    empty list: a call with [None], an empty list, an empty text, [0],
    [False] or an empty dict as [risk_flags] does what the call with the
    empty list does, and the record it returns has no risk flag. *)
Theorem falsy_risk_flags_are_logged_as_empty (log : disk_file) (c : call) :
  truthy (arg_risk_flags c) = false ->
  log_call log c = log_call log (with_risk_flags c (JArr []))
  /\ match log_call log c with
     | Ok (r, _) => risk_flags r = []
     | Raise _ => True
     end.
Proof.
  intros H.
  assert (E : log_call log c = log_call log (with_risk_flags c (JArr []))).
  { destruct c as [a_model a_config a_prompt a_sources a_output a_confidence
                     a_flags defaults].
    cbn [arg_risk_flags] in H. unfold log_call, log_decision, with_risk_flags.
    cbn [arg_model arg_config arg_prompt arg_context_sources arg_output
         arg_confidence arg_risk_flags arg_stamp].
    rewrite (falsy_risk_flags _ H).
    rewrite (falsy_risk_flags (JArr []) eq_refl). reflexivity. }
  split; [exact E |].
  destruct (log_call log c) as [[r log'] | e]; [| exact I].
  symmetry in E. rename E into Hc.
  unfold log_call, log_decision, with_risk_flags in Hc.
  cbn [arg_model arg_config arg_prompt arg_context_sources arg_output
       arg_confidence arg_risk_flags arg_stamp is_None truthy List.length
       Nat.eqb negb] in Hc.
  bind_inv Hc as ph Hph. bind_inv Hc as temp Htemp.
  bind_inv Hc as current Hcur. bind_inv Hc as final Hfinal.
  inversion Hc; subst final log'; clear Hc.
  unfold DecisionRecord_init, required, optional in Hfinal; simpl in Hfinal.
  repeat match type of Hfinal with
         | match ?o with _ => _ end = _ => destruct o; try discriminate Hfinal
         end.
  inversion Hfinal. reflexivity.
Qed.

Lemma falsy_risk_flags_are_logged_as_empty_witness :
  log_call NoFile (with_risk_flags DECISION_1 (JStr ""))
  = log_call NoFile
      (with_risk_flags (with_risk_flags DECISION_1 (JStr "")) (JArr []))
  /\ match log_call NoFile (with_risk_flags DECISION_1 (JStr "")) with
     | Ok (r, _) => risk_flags r = []
     | Raise _ => True
     end.
Proof.
  exact (falsy_risk_flags_are_logged_as_empty NoFile
           (with_risk_flags DECISION_1 (JStr "")) eq_refl).
Defined.
